(** * temporary-html: expiry and lifecycle of stored pages

    A shallow embedding of [app/models.py] and [app/main.py]: the
    [HTMLPage] model, the upload, view and info handlers and the hourly
    clean-up job, together with the properties of the page store that the
    specification states about them. *)

From Stdlib Require Import ZArith Lia DecimalString.
From stdpp Require Import base option list strings gmap fin_maps.

Local Open Scope Z_scope.

(** ** Python values

    A [str] is its sequence of code points and a [bytes] object its
    sequence of byte values.  Identifiers, form selectors and messages,
    whose characters are never inspected, are kept as [string]. *)

Abbreviation str := (list Z).
Abbreviation bytes := (list Z).

(** [len(x)] *)
Definition len {A} (x : list A) : Z := Z.of_nat (length x).

Module Utf8.

(** Continuation byte, [0x80..0xBF]. *)
Definition is_cont (b : Z) : bool := (0x80 <=? b) && (b <=? 0xBF).

(** Range of the second byte of a three-byte form, by lead byte:
    [E0] excludes over-long forms, [ED] excludes surrogates. *)
Definition second3 (b0 b1 : Z) : bool :=
  if b0 =? 0xE0 then (0xA0 <=? b1) && (b1 <=? 0xBF)
  else if b0 =? 0xED then (0x80 <=? b1) && (b1 <=? 0x9F)
  else is_cont b1.

(** Range of the second byte of a four-byte form, by lead byte:
    [F0] excludes over-long forms, [F4] stops at U+10FFFF. *)
Definition second4 (b0 b1 : Z) : bool :=
  if b0 =? 0xF0 then (0x90 <=? b1) && (b1 <=? 0xBF)
  else if b0 =? 0xF4 then (0x80 <=? b1) && (b1 <=? 0x8F)
  else is_cont b1.

(** [bytes.decode('utf-8')] with the default strict error handler;
    [None] stands for [UnicodeDecodeError]. *)
Fixpoint decode (b : bytes) : option str :=
  match b with
  | [] => Some []
  | b0 :: r0 =>
      if (0 <=? b0) && (b0 <? 0x80) then
        cons b0 <$> decode r0
      else if (0xC2 <=? b0) && (b0 <=? 0xDF) then
        match r0 with
        | b1 :: r1 =>
            if is_cont b1
            then cons ((b0 - 0xC0) * 64 + (b1 - 0x80)) <$> decode r1
            else None
        | _ => None
        end
      else if (0xE0 <=? b0) && (b0 <=? 0xEF) then
        match r0 with
        | b1 :: b2 :: r2 =>
            if second3 b0 b1 && is_cont b2
            then cons ((b0 - 0xE0) * 4096 + (b1 - 0x80) * 64 + (b2 - 0x80))
                   <$> decode r2
            else None
        | _ => None
        end
      else if (0xF0 <=? b0) && (b0 <=? 0xF4) then
        match r0 with
        | b1 :: b2 :: b3 :: r3 =>
            if second4 b0 b1 && is_cont b2 && is_cont b3
            then cons ((b0 - 0xF0) * 262144 + (b1 - 0x80) * 4096
                       + (b2 - 0x80) * 64 + (b3 - 0x80))
                   <$> decode r3
            else None
        | _ => None
        end
      else None
  end.

(** The bytes of one code point; [None] for a surrogate or a value
    that is no code point. *)
Definition encode_char (c : Z) : option bytes :=
  if c <? 0 then None
  else if c <? 0x80 then Some [c]
  else if c <? 0x800 then Some [0xC0 + c / 64; 0x80 + c mod 64]
  else if c <? 0x10000 then
    if (0xD800 <=? c) && (c <=? 0xDFFF) then None
    else Some [0xE0 + c / 4096; 0x80 + (c / 64) mod 64; 0x80 + c mod 64]
  else if c <=? 0x10FFFF then
    Some [0xF0 + c / 262144; 0x80 + (c / 4096) mod 64;
          0x80 + (c / 64) mod 64; 0x80 + c mod 64]
  else None.

(** [str.encode('utf-8')]; [None] stands for [UnicodeEncodeError]. *)
Fixpoint encode (s : str) : option bytes :=
  match s with
  | [] => Some []
  | c :: r =>
      match encode_char c, encode r with
      | Some bc, Some br => Some (bc ++ br)
      | _, _ => None
      end
  end.

End Utf8.

(** ** Whitespace and [str.strip()] *)

(** [str.isspace] on one code point (the table of
    [_PyUnicode_IsWhitespace]). *)
Definition isspace (c : Z) : bool :=
  ((0x09 <=? c) && (c <=? 0x0D)) || ((0x1C <=? c) && (c <=? 0x20))
  || (c =? 0x85) || (c =? 0xA0) || (c =? 0x1680)
  || ((0x2000 <=? c) && (c <=? 0x200A))
  || (c =? 0x2028) || (c =? 0x2029) || (c =? 0x202F) || (c =? 0x205F)
  || (c =? 0x3000).

(** [str.lstrip()] *)
Fixpoint lstrip (s : str) : str :=
  match s with
  | c :: r => if isspace c then lstrip r else s
  | [] => []
  end.

(** [str.rstrip()] *)
Definition rstrip (s : str) : str := rev (lstrip (rev s)).

(** [str.strip()] *)
Definition strip (s : str) : str := rstrip (lstrip s).

(** Truth value of a sequence: [bool(x)] is [len(x) != 0]. *)
Definition truthy {A} (x : list A) : bool :=
  match x with [] => false | _ => true end.


(** ** Dates and durations

    A [datetime] (always UTC here) is the number of microseconds since
    0001-01-01T00:00:00, the first representable instant; a [timedelta]
    is a number of microseconds. *)

Abbreviation datetime := Z.
Abbreviation timedelta := Z.

Definition us_per_day : Z := 86400 * 1000000.

(** [datetime.min] and [datetime.max] (9999-12-31T23:59:59.999999). *)
Definition datetime_min : datetime := 0.
Definition datetime_max : datetime := 3652059 * us_per_day - 1.

(** [timedelta.max.days] *)
Definition timedelta_max_days : Z := 999999999.

(** ** Exceptions and the handler monad *)

Inductive exn :=
| HTTPException (status_code : Z) (detail : string)
| UnicodeDecodeError
| UnicodeEncodeError
| OverflowError
| AttributeError
| OperationalError
| IntegrityError.

Inductive result (A : Type) :=
| Ok (a : A)
| Raise (e : exn).
Arguments Ok {A} a.
Arguments Raise {A} e.

(** The status line the client sees: FastAPI turns an [HTTPException]
    into a response with its status code and any other exception into a
    500. *)
Definition status {A} (r : result A) : Z :=
  match r with
  | Ok _ => 200
  | Raise (HTTPException code _) => code
  | Raise _ => 500
  end.

(** [timedelta(days=d)]: [OverflowError] beyond [timedelta.max.days]. *)
Definition timedelta_days (d : Z) : result timedelta :=
  if Z.abs d <=? timedelta_max_days then Ok (d * us_per_day)
  else Raise OverflowError.

(** [t + delta] on a [datetime]: [OverflowError] ("date value out of
    range") when the sum is no [datetime]. *)
Definition datetime_add (t : datetime) (delta : timedelta) : result datetime :=
  if (datetime_min <=? t + delta) && (t + delta <=? datetime_max)
  then Ok (t + delta)
  else Raise OverflowError.

(** [str(n)] for an [int] *)
Definition str_of_int (n : Z) : string :=
  NilZero.string_of_int (Z.to_int n).

(** ** models.py *)

Record HTMLPage := {
  id : string;
  content : str;
  created_at : option datetime;   (* unset until the INSERT fills it in *)
  expires_at : option datetime;   (* NULL = indefinite *)
  content_size : Z;
}.

(** What the environment answers during one call: the random token, the
    successive readings of the clock, and whether each round trip to the
    database goes through. *)
Record Env := {
  token_urlsafe : string;       (* secrets.token_urlsafe(12) *)
  now_calculate : datetime;     (* clock read in calculate_expiration *)
  now_default : datetime;       (* clock read by the created_at default *)
  now_is_expired : datetime;    (* clock read in is_expired *)
  now_remaining : datetime;     (* clock read in time_remaining *)
  now_cleanup : datetime;       (* clock read in cleanup_expired_pages *)
  select_ok : bool;             (* the SELECT of a query succeeds *)
  delete_ok : bool;             (* the bulk DELETE succeeds *)
  commit_ok : bool;             (* flush and COMMIT succeed *)
}.

Definition generate_id (env : Env) : string := token_urlsafe env.

Definition calculate_expiration (now : datetime) (days : option Z)
  : result (option datetime) :=
  match days with
  | None => Ok None
  | Some d =>
      if d <=? 0 then Ok None  (* Indefinite *)
      else
        match timedelta_days d with
        | Raise e => Raise e
        | Ok delta =>
            match datetime_add now delta with
            | Raise e => Raise e
            | Ok t => Ok (Some t)
            end
        end
  end.

Definition is_expired (now : datetime) (self : HTMLPage) : bool :=
  match expires_at self with
  | None => false
  | Some e => now >? e
  end.

Definition time_remaining (now : datetime) (self : HTMLPage) : string :=
  match expires_at self with
  | None => "Never expires"
  | Some e =>
      let delta := e - now in
      if delta <=? 0 then "Expired"
      else
        let days := delta / us_per_day in
        let hours := ((delta mod us_per_day) / 1000000) / 3600 in
        if days >? 0
        then str_of_int days +:+ " day(s), " +:+ str_of_int hours +:+ " hour(s)"
        else str_of_int hours +:+ " hour(s)"
  end.

(** ** The database session

    The [html_pages] table maps the primary key [id] to the other
    columns of its row; the mapped object read back from a row carries the
    key as its [id].  A session keeps the work of the open transaction as
    a list of statements, which [commit] applies to the table or
    discards. *)

Record Row := {
  row_content : str;
  row_created_at : option datetime;
  row_expires_at : option datetime;
  row_content_size : Z;
}.

Abbreviation table := (gmap string Row).

(** The object loaded from the row stored under [page_id]. *)
Definition page_of (page_id : string) (r : Row) : HTMLPage :=
  {| id := page_id; content := row_content r;
     created_at := row_created_at r; expires_at := row_expires_at r;
     content_size := row_content_size r |}.

(** The row written for [page]; the column default of [created_at] is
    taken at that moment. *)
Definition row_of (now : datetime) (page : HTMLPage) : Row :=
  {| row_content := content page;
     row_created_at := match created_at page with
                       | Some t => Some t
                       | None => Some now
                       end;
     row_expires_at := expires_at page;
     row_content_size := content_size page |}.

Inductive stmt :=
| Insert (page : HTMLPage)               (* db.add(page), flushed as INSERT *)
| DeleteRow (page_id : string)           (* db.delete(page), flushed as DELETE *)
| DeleteWhere (cond : HTMLPage → bool).  (* query.filter(cond).delete() *)

Record World := {
  rows : table;          (* committed rows of html_pages *)
  pending : list stmt;   (* the open transaction, oldest first *)
  stdout : list string;  (* lines printed so far *)
}.

(** The rows a condition selects. *)
Definition selected (cond : HTMLPage → bool) (t : table) : table :=
  filter (λ kv, cond (page_of kv.1 kv.2) = true) t.

(** The rows a condition leaves. *)
Definition unselected (cond : HTMLPage → bool) (t : table) : table :=
  filter (λ kv, cond (page_of kv.1 kv.2) = false) t.

(** One statement on the table; [None] when the primary key is taken. *)
Definition apply_stmt (now : datetime) (t : table) (s : stmt) : option table :=
  match s with
  | Insert page =>
      match t !! id page with
      | Some _ => None
      | None => Some (<[id page := row_of now page]> t)
      end
  | DeleteRow page_id => Some (delete page_id t)
  | DeleteWhere cond => Some (unselected cond t)
  end.

Fixpoint apply_stmts (now : datetime) (t : table) (l : list stmt)
  : option table :=
  match l with
  | [] => Some t
  | s :: l' =>
      match apply_stmt now t s with
      | Some t' => apply_stmts now t' l'
      | None => None
      end
  end.

Definition M (A : Type) : Type := World → result A * World.

Definition ret {A} (a : A) : M A := λ w, (Ok a, w).

Definition raise {A} (e : exn) : M A := λ w, (Raise e, w).

Definition bind {A B} (m : M A) (k : A → M B) : M B :=
  λ w, match m w with
       | (Ok a, w') => k a w'
       | (Raise e, w') => (Raise e, w')
       end.

Declare Scope py_scope.
Delimit Scope py_scope with py.
Notation "x <- m ;; k" := (bind m (λ x, k))
  (at level 100, m at next level, right associativity) : py_scope.
Notation "m ;; k" := (bind m (λ _, k))
  (at level 100, right associativity) : py_scope.

(** A pure computation that may raise. *)
Definition lift {A} (r : result A) : M A := λ w, (r, w).

(** [print(line)] *)
Definition print (line : string) : M unit :=
  λ w, (Ok tt, {| rows := rows w; pending := pending w;
                  stdout := stdout w ++ [line] |}).

(** [db.query(HTMLPage).filter(HTMLPage.id == page_id).first()].  Every
    handler queries before it stages anything, so the rows it sees are
    the committed ones. *)
Definition query_first (ok : bool) (page_id : string) : M (option HTMLPage) :=
  λ w, if ok then (Ok (page_of page_id <$> rows w !! page_id), w)
       else (Raise OperationalError, w).

(** [db.query(HTMLPage).filter(cond).delete()]: the DELETE runs in the
    open transaction and its row count is returned. *)
Definition query_delete (ok : bool) (cond : HTMLPage → bool) : M Z :=
  λ w, if ok
       then (Ok (Z.of_nat (size (selected cond (rows w)))),
             {| rows := rows w; pending := pending w ++ [DeleteWhere cond];
                stdout := stdout w |})
       else (Raise OperationalError, w).

(** [db.add(page)] *)
Definition db_add (page : HTMLPage) : M unit :=
  λ w, (Ok tt, {| rows := rows w; pending := pending w ++ [Insert page];
                  stdout := stdout w |}).

(** [db.delete(page)] *)
Definition db_delete (page : HTMLPage) : M unit :=
  λ w, (Ok tt, {| rows := rows w; pending := pending w ++ [DeleteRow (id page)];
                  stdout := stdout w |}).

(** [db.commit()]: flushes the pending work and commits it.  When the
    database refuses, the exception leaves the table as it was. *)
Definition db_commit (ok : bool) (now : datetime) : M unit :=
  λ w, let rolled_back :=
         {| rows := rows w; pending := []; stdout := stdout w |} in
       if ok then
         match apply_stmts now (rows w) (pending w) with
         | Some t => (Ok tt, {| rows := t; pending := []; stdout := stdout w |})
         | None => (Raise IntegrityError, rolled_back)
         end
       else (Raise OperationalError, rolled_back).

(** A call on a fresh session ([get_db] / [SessionLocal()]), closed when
    the call ends. *)
Record Outcome (A : Type) := {
  outcome : result A;      (* what the caller gets *)
  table_after : table;     (* the committed table afterwards *)
  printed : list string;   (* the lines printed *)
}.
Arguments outcome {A} _.
Arguments table_after {A} _.
Arguments printed {A} _.

Definition run {A} (m : M A) (t : table) : Outcome A :=
  let '(r, w) := m {| rows := t; pending := []; stdout := [] |} in
  {| outcome := r; table_after := rows w; printed := stdout w |}.

(** ** main.py *)

Local Open Scope py_scope.

(** [sub in s] on strings *)
Definition contains (sub s : string) : bool :=
  match String.index 0 sub s with
  | Some _ => true
  | None => false
  end.

Record UploadFile := {
  filename : option string;
  file_bytes : bytes;   (* what [await html_file.read()] returns *)
}.

(** The JSON body of a successful upload. *)
Record UploadJSON := {
  json_success : bool;
  json_link : string;
  json_id : string;
  json_expires_at : option datetime;   (* [isoformat()] of it, or null *)
  json_size_bytes : Z;
}.

(** The context handed to [index.html] after a browser upload. *)
Record UploadPage := {
  ctx_success : bool;
  ctx_link : string;
  ctx_expires_at : option datetime;
  ctx_time_remaining : string;
}.

Inductive UploadResponse :=
| JSONResponse (body : UploadJSON)
| TemplateResponse (context : UploadPage).

(** The body of [/api/info/{page_id}]. *)
Record PageInfo := {
  info_id : string;
  info_created_at : datetime;          (* [isoformat()] of it *)
  info_expires_at : option datetime;   (* [isoformat()] of it, or null *)
  info_time_remaining : string;
  info_size_bytes : Z;
}.

Definition EXPIRATION_OPTIONS : gmap string (option Z) :=
  list_to_map [("1"%string, Some 1); ("7"%string, Some 7);
               ("30"%string, Some 30); ("0"%string, None)].

(** The filter of the clean-up query:
    [expires_at IS NOT NULL AND expires_at < now]. *)
Definition cleanup_filter (now : datetime) (page : HTMLPage) : bool :=
  bool_decide (expires_at page ≠ None)
  && match expires_at page with
     | Some e => e <? now
     | None => false   (* a comparison with NULL selects nothing *)
     end.

Section Main.

(** Configuration read from the environment at start-up. *)
Variable BASE_URL : string.
Variable MAX_UPLOAD_SIZE : Z.
(** [f"{MAX_UPLOAD_SIZE / (1024*1024):.1f}"] *)
Variable max_size_mb : string.

Definition cleanup_expired_pages (env : Env) : M unit :=
  let now := now_cleanup env in
  deleted <- query_delete (delete_ok env) (cleanup_filter now);;
  db_commit (commit_ok env) (now_default env);;
  if deleted >? 0
  then print ("Cleaned up " +:+ str_of_int deleted +:+ " expired page(s)")
  else ret tt.

Definition upload_html (env : Env)
    (html_content : option str) (html_file : option UploadFile)
    (expiration : string) (accept : string) : M UploadResponse :=
  (* Get content from either form field or file *)
  let from_form : M (option str) :=
    match html_content with
    | Some text =>
        if truthy text then
          match Utf8.encode text with
          | None => raise UnicodeEncodeError
          | Some encoded =>
              if len encoded >? MAX_UPLOAD_SIZE
              then raise (HTTPException 413
                     ("Content too large. Maximum size is "
                      +:+ max_size_mb +:+ "MB"))
              else ret (Some text)
          end
        else ret None
    | None => ret None
    end in
  content <-
    match html_file with
    | Some file =>
        match filename file with
        | Some (String _ _) =>
            let raw := file_bytes file in
            if len raw >? MAX_UPLOAD_SIZE
            then raise (HTTPException 413
                   ("File too large. Maximum size is "
                    +:+ max_size_mb +:+ "MB"))
            else
              match Utf8.decode raw with
              | None => raise UnicodeDecodeError
              | Some text => ret (Some text)
              end
        | _ => from_form
        end
    | None => from_form
    end;;
  match content with
  | None => raise (HTTPException 400 "No HTML content provided")
  | Some content =>
      if negb (truthy content) || negb (truthy (strip content))
      then raise (HTTPException 400 "No HTML content provided")
      else
        (* Validate expiration option *)
        match EXPIRATION_OPTIONS !! expiration with
        | None => raise (HTTPException 400 "Invalid expiration option")
        | Some days =>
            (* Create the page *)
            let page_id := generate_id env in
            expires <- lift (calculate_expiration (now_calculate env) days);;
            size <- match Utf8.encode content with
                    | None => raise UnicodeEncodeError
                    | Some encoded => ret (len encoded)
                    end;;
            let page :=
              {| id := page_id; content := content; created_at := None;
                 expires_at := expires; content_size := size |} in
            db_add page;;
            db_commit (commit_ok env) (now_default env);;
            let link := BASE_URL +:+ "/link/" +:+ id page in
            (* Check if request wants JSON (curl) or HTML (browser) *)
            if contains "application/json" accept
               || contains "text/plain" accept
            then ret (JSONResponse
                   {| json_success := true; json_link := link;
                      json_id := id page;
                      json_expires_at := expires_at page;
                      json_size_bytes := content_size page |})
            else ret (TemplateResponse
                   {| ctx_success := true; ctx_link := link;
                      ctx_expires_at := expires_at page;
                      ctx_time_remaining :=
                        time_remaining (now_remaining env) page |})
        end
  end.

Definition api_upload_html (env : Env)
    (html_file : option UploadFile) (expiration : Z) : M UploadJSON :=
  match html_file with
  | None => raise (HTTPException 400 "No file provided")
  | Some file =>
      let content := file_bytes file in
      if len content >? MAX_UPLOAD_SIZE
      then raise (HTTPException 413
             ("File too large. Maximum size is " +:+ max_size_mb +:+ "MB"))
      else
        match Utf8.decode content with
        | None => raise (HTTPException 400 "File must be valid UTF-8 text")
        | Some content_str =>
            if negb (truthy (strip content_str))
            then raise (HTTPException 400 "Empty file")
            else
              (* Map expiration days *)
              let days := if expiration <=? 0 then None  (* Indefinite *)
                          else Some expiration in
              let page_id := generate_id env in
              expires <- lift (calculate_expiration (now_calculate env) days);;
              let page :=
                {| id := page_id; content := content_str; created_at := None;
                   expires_at := expires; content_size := len content |} in
              db_add page;;
              db_commit (commit_ok env) (now_default env);;
              ret {| json_success := true;
                     json_link := BASE_URL +:+ "/link/" +:+ id page;
                     json_id := id page;
                     json_expires_at := expires_at page;
                     json_size_bytes := content_size page |}
        end
  end.

(** Serve the uploaded HTML content: the body of the [HTMLResponse]. *)
Definition view_page (env : Env) (page_id : string) : M str :=
  page <- query_first (select_ok env) page_id;;
  match page with
  | None => raise (HTTPException 404 "Page not found")
  | Some page =>
      if is_expired (now_is_expired env) page then
        (* Clean up expired page *)
        db_delete page;;
        db_commit (commit_ok env) (now_default env);;
        raise (HTTPException 404 "Page has expired")
      else ret (content page)
  end.

(** Get information about a page. *)
Definition page_info (env : Env) (page_id : string) : M PageInfo :=
  page <- query_first (select_ok env) page_id;;
  match page with
  | None => raise (HTTPException 404 "Page not found")
  | Some page =>
      if is_expired (now_is_expired env) page then
        db_delete page;;
        db_commit (commit_ok env) (now_default env);;
        raise (HTTPException 404 "Page has expired")
      else
        match created_at page with
        | None => raise AttributeError
        | Some created =>
            ret {| info_id := id page;
                   info_created_at := created;
                   info_expires_at := expires_at page;
                   info_time_remaining :=
                     time_remaining (now_remaining env) page;
                   info_size_bytes := content_size page |}
        end
  end.

End Main.

(** ** The expiry rule of the specification *)

(** The rule of the specification: [expires_at] is present and strictly
    less than the current time. *)
Definition lapsed (now : datetime) (expires : option datetime) : Prop :=
  ∃ e, expires = Some e ∧ e < now.

(** ** Outcomes of a read, for the statements below *)

Definition not_found {A} : result A :=
  Raise (HTTPException 404 "Page not found").

Definition has_expired {A} : result A :=
  Raise (HTTPException 404 "Page has expired").

(** The body [page_info] builds from a live row. *)
Definition info_of (env : Env) (page_id : string) (r : Row) : result PageInfo :=
  match row_created_at r with
  | None => Raise AttributeError
  | Some created =>
      Ok {| info_id := page_id;
            info_created_at := created;
            info_expires_at := row_expires_at r;
            info_time_remaining :=
              time_remaining (now_remaining env) (page_of page_id r);
            info_size_bytes := row_content_size r |}
  end.

(** What the delete-on-read of an expired row comes to. *)
Definition purge {A} (env : Env) (page_id : string) (t : table) : Outcome A :=
  if commit_ok env
  then {| outcome := has_expired; table_after := delete page_id t;
          printed := [] |}
  else {| outcome := Raise OperationalError; table_after := t;
          printed := [] |}.

(** ** Uploads, for the statements below *)

(** Valid content: encodable text that is not blank and whose UTF-8
    encoding fits the configured maximum. *)
Definition valid_content (MAX_UPLOAD_SIZE : Z) (C : str) : Prop :=
  strip C ≠ [] ∧ ∃ b, Utf8.encode C = Some b ∧ len b ≤ MAX_UPLOAD_SIZE.

(** No file part that counts: none at all, or one without a file name. *)
Definition no_file (html_file : option UploadFile) : Prop :=
  match html_file with
  | None => True
  | Some file => filename file = None ∨ filename file = Some ""%string
  end.

(** The two ways a form submits the text [C]: in the [html_content] field,
    or as a named file whose bytes decode to [C]. *)
Inductive submits (C : str) : option str → option UploadFile → Prop :=
| submits_field html_file :
    no_file html_file → submits C (Some C) html_file
| submits_file html_content a name raw :
    Utf8.decode raw = Some C →
    submits C html_content
      (Some {| filename := Some (String a name); file_bytes := raw |}).

(** The expiry a retention of [days] gives at time [now]. *)
Definition expiry (now : datetime) (days : option Z) : option datetime :=
  match days with
  | None => None
  | Some d => if d <=? 0 then None else Some (now + d * us_per_day)
  end.

(** ** Sample data *)

Module Sample.

(** 2026-01-01T00:00:00 *)
Definition new_year : datetime := 63902822400000000.

(** An environment whose clock reads [now] and whose database answers,
    except that commits succeed only when [commits] is set. *)
Definition env_at (now : datetime) (commits : bool) : Env :=
  {| token_urlsafe := "q0Vh3mZkT1a9XbLw";
     now_calculate := now; now_default := now; now_is_expired := now;
     now_remaining := now; now_cleanup := now;
     select_ok := true; delete_ok := true; commit_ok := commits |}.

(** [<h1>hi</h1>] *)
Definition hi : str := [60; 104; 49; 62; 104; 105; 60; 47; 104; 49; 62].

(** A row that lapsed on 2025-12-31, one that lasts until 2026-01-08 and
    one that never expires. *)
Definition old_row : Row :=
  {| row_content := hi; row_created_at := Some (new_year - 2 * us_per_day);
     row_expires_at := Some (new_year - us_per_day); row_content_size := 11 |}.

Definition live_row : Row :=
  {| row_content := hi; row_created_at := Some new_year;
     row_expires_at := Some (new_year + 7 * us_per_day);
     row_content_size := 11 |}.

Definition kept_row : Row :=
  {| row_content := hi; row_created_at := Some new_year;
     row_expires_at := None; row_content_size := 11 |}.

Definition pages : table :=
  <["lapsed0000000001" := old_row]>
    (<["living0000000002" := live_row]>
       (<["forever000000003" := kept_row]> ∅)).

(** New year's midnight with the database up, the same with commits
    failing, and one hour later. *)
Definition env : Env := env_at new_year true.
Definition down : Env := env_at new_year false.
Definition later : Env := env_at (new_year + 3600 * 1000000) true.

(** A file holding [hi], and one holding a byte that starts no UTF-8
    sequence. *)
Definition page : UploadFile :=
  {| filename := Some "page.html"%string; file_bytes := hi |}.
Definition broken : UploadFile :=
  {| filename := Some "page.html"%string; file_bytes := [0xFF] |}.

End Sample.

(** ** Identifiers

    [secrets.token_urlsafe(n)] is
    [base64.urlsafe_b64encode(token_bytes(n)).rstrip(b'=').decode('ascii')];
    the model takes the random bytes that [token_bytes] drew. *)

Module Base64.
Import Stdlib.Strings.Ascii.

(** The URL-safe alphabet of [base64.urlsafe_b64encode]. *)
Definition alphabet : list ascii :=
  String.list_ascii_of_string
    "ABCDEFGHIJKLMNOPQRSTUVWXYZabcdefghijklmnopqrstuvwxyz0123456789-_".

(** The character of a six-bit value. *)
Definition char (i : Z) : ascii := nth (Z.to_nat i) alphabet "="%char.

(** [base64.urlsafe_b64encode(b)], with its padding. *)
Fixpoint urlsafe_b64encode (b : bytes) : list ascii :=
  match b with
  | [] => []
  | [x] => [char (x / 4); char (x mod 4 * 16); "="%char; "="%char]
  | [x; y] =>
      [char (x / 4); char (x mod 4 * 16 + y / 16); char (y mod 16 * 4);
       "="%char]
  | x :: y :: z :: r =>
      char (x / 4) :: char (x mod 4 * 16 + y / 16)
        :: char (y mod 16 * 4 + z / 64) :: char (z mod 64)
        :: urlsafe_b64encode r
  end.

(** [s.lstrip(b'=')] *)
Fixpoint lstrip_pad (s : list ascii) : list ascii :=
  match s with
  | c :: r => if Ascii.eqb c "=" then lstrip_pad r else s
  | [] => []
  end.

(** [s.rstrip(b'=')] *)
Definition rstrip_pad (s : list ascii) : list ascii := rev (lstrip_pad (rev s)).

(** [secrets.token_urlsafe(n)] for the [n] random bytes [tok]. *)
Definition token_urlsafe_of (tok : bytes) : string :=
  String.string_of_list_ascii (rstrip_pad (urlsafe_b64encode tok)).

(** Letters, digits, hyphen and underscore: the characters that need no
    escaping in a URL path. *)
Definition url_safe (c : ascii) : bool :=
  let n := nat_of_ascii c in
  ((65 <=? n) && (n <=? 90) || (97 <=? n) && (n <=? 122)
   || (48 <=? n) && (n <=? 57) || (n =? 45) || (n =? 95))%nat.

End Base64.

(** A value a [bytes] object can hold. *)
Definition is_byte (b : Z) : Prop := 0 ≤ b < 256.

(** The last character of a string, if it has one. *)
Definition last_char (s : string) : option Ascii.ascii :=
  last (String.list_ascii_of_string s).

(** ** Rows as the upload handlers write them *)

(** [created_at] is set, the content is not blank, the size is the length
    of the content's UTF-8 encoding, and it is positive and within the
    configured maximum. *)
Definition page_ok (MAX_UPLOAD_SIZE : Z) (r : Row) : Prop :=
  is_Some (row_created_at r)
  ∧ strip (row_content r) ≠ []
  ∧ (∃ b, Utf8.encode (row_content r) = Some b ∧ row_content_size r = len b)
  ∧ 0 < row_content_size r ≤ MAX_UPLOAD_SIZE.

Definition table_ok (MAX_UPLOAD_SIZE : Z) (t : table) : Prop :=
  map_Forall (λ _ r, page_ok MAX_UPLOAD_SIZE r) t.

(** ** More sample data *)

Module More.

(** Twelve bytes as [token_bytes(12)] may draw them, and an environment
    whose token comes from them. *)
Definition draw : bytes := [251; 255; 190; 0; 16; 131; 16; 81; 135; 32; 146; 139].

Definition drawn : Env :=
  {| token_urlsafe := Base64.token_urlsafe_of draw;
     now_calculate := Sample.new_year; now_default := Sample.new_year;
     now_is_expired := Sample.new_year; now_remaining := Sample.new_year;
     now_cleanup := Sample.new_year;
     select_ok := true; delete_ok := true; commit_ok := true |}.

(** An environment whose token is already the id of a stored page. *)
Definition repeated : Env :=
  {| token_urlsafe := "living0000000002";
     now_calculate := Sample.new_year; now_default := Sample.new_year;
     now_is_expired := Sample.new_year; now_remaining := Sample.new_year;
     now_cleanup := Sample.new_year;
     select_ok := true; delete_ok := true; commit_ok := true |}.

(** An environment in which the bulk DELETE fails. *)
Definition no_delete : Env :=
  {| token_urlsafe := "q0Vh3mZkT1a9XbLw";
     now_calculate := Sample.new_year; now_default := Sample.new_year;
     now_is_expired := Sample.new_year; now_remaining := Sample.new_year;
     now_cleanup := Sample.new_year;
     select_ok := true; delete_ok := false; commit_ok := true |}.

(** A space, a line feed and a tab. *)
Definition blank : str := [32; 10; 9].

End More.

(** * Properties *)

(** ** UTF-8 *)

(** Case analysis on the integer comparisons of the goal and of the
    hypotheses, pruning the impossible branches as they appear. *)
Ltac split_on spec :=
  destruct spec; cbn [andb orb negb] in *; try discriminate; try lia.

Ltac zcases :=
  repeat match goal with
         | H : context [?a >? ?b] |- _ => rewrite (Z.gtb_ltb a b) in H
         | |- context [?a >? ?b] => rewrite (Z.gtb_ltb a b)
         | H : context [?a <=? ?b] |- _ => split_on (Z.leb_spec a b)
         | H : context [?a <? ?b] |- _ => split_on (Z.ltb_spec a b)
         | H : context [?a =? ?b] |- _ => split_on (Z.eqb_spec a b)
         | |- context [?a <=? ?b] => split_on (Z.leb_spec a b)
         | |- context [?a <? ?b] => split_on (Z.ltb_spec a b)
         | |- context [?a =? ?b] => split_on (Z.eqb_spec a b)
         end.

Section Utf8Facts.
Import Utf8.

Lemma decode_encode_aux (n : nat) :
  ∀ b s, (length b ≤ n)%nat → decode b = Some s → encode s = Some b.
Proof.
  induction n as [|n IH]; intros b s Hn Hd.
  - destruct b; simpl in Hn; [|lia]. simpl in Hd. by simplify_eq.
  - destruct b as [|b0 r0]; [simpl in Hd; by simplify_eq|].
    simpl in Hn. cbn [decode] in Hd.
    unfold second3, second4, is_cont in Hd.
    zcases.
    all: repeat match goal with
           | H : match ?r with [] => _ | _ :: _ => _ end = Some _ |- _ =>
               destruct r; [discriminate H|]
           end; zcases.
    all: match goal with
         | H : _ <$> decode ?r = Some _ |- _ =>
             destruct (decode r) as [s'|] eqn:Er; [|discriminate H];
             injection H as <-; cbn [encode];
             rewrite (IH r s') by (done || simpl in Hn |- *; lia)
         end.
    all: unfold encode_char; zcases; cbn [app]; f_equal.
    all: repeat (apply (f_equal2 cons);
                 [Z.to_euclidean_division_equations; lia|]); reflexivity.
Qed.

(** Decoding is undone by encoding: a decoded text encodes to the very
    bytes it came from. *)
Lemma decode_encode (b : bytes) (s : str) :
  decode b = Some s → encode s = Some b.
Proof. by apply (decode_encode_aux (length b)). Qed.

End Utf8Facts.

(** ** Blank text *)

Lemma lstrip_nil (s : str) : lstrip s = [] ↔ forallb isspace s = true.
Proof.
  induction s as [|c r IH]; [done|]. simpl.
  destruct (isspace c); [done|]. by split.
Qed.

(** A text strips to nothing exactly when all of it is whitespace. *)
Lemma strip_nil (s : str) : strip s = [] ↔ forallb isspace s = true.
Proof.
  unfold strip, rstrip. rewrite <- lstrip_nil.
  destruct (lstrip s) as [|c r] eqn:E; [done|].
  assert (isspace c = false) as Hc.
  { clear -E. induction s as [|c' r' IH]; [done|]. simpl in E.
    destruct (isspace c') eqn:Ec; [by apply IH|]. by simplify_eq. }
  split; [|done]. intros H%(f_equal (@rev Z)).
  rewrite rev_involutive in H. simpl in H.
  apply lstrip_nil in H. rewrite forallb_app in H.
  simpl in H. rewrite Hc in H. by destruct (forallb isspace (rev r)).
Qed.

(** ** Tables and conditions *)

Lemma unselected_lookup (cond : HTMLPage → bool) (t : table) (k : string) :
  unselected cond t !! k
  = match t !! k with
    | Some r => if cond (page_of k r) then None else Some r
    | None => None
    end.
Proof.
  unfold unselected. rewrite map_lookup_filter.
  destruct (t !! k) as [r|]; simpl; [|done].
  destruct (cond (page_of k r)); by case_guard.
Qed.

Lemma selected_lookup (cond : HTMLPage → bool) (t : table) (k : string) :
  selected cond t !! k
  = match t !! k with
    | Some r => if cond (page_of k r) then Some r else None
    | None => None
    end.
Proof.
  unfold selected. rewrite map_lookup_filter.
  destruct (t !! k) as [r|]; simpl; [|done].
  destruct (cond (page_of k r)); by case_guard.
Qed.

(** The selected and the remaining rows partition the table. *)
Lemma selected_unselected_size (cond : HTMLPage → bool) (t : table) :
  (size (selected cond t) + size (unselected cond t) = size t)%nat.
Proof.
  assert (unselected cond t
          = filter (λ kv, ¬ cond (page_of kv.1 kv.2) = true) t) as ->.
  { unfold unselected. apply map_filter_ext. intros i x _. simpl.
    by destruct (cond (page_of i x)). }
  unfold selected.
  rewrite <- map_size_disj_union
    by apply (map_disjoint_filter_complement
                (λ kv, cond (page_of kv.1 kv.2) = true)).
  by rewrite (map_filter_union_complement
                (λ kv : string * Row, cond (page_of kv.1 kv.2) = true)).
Qed.

(** A condition that selects no row leaves the table alone. *)
Lemma unselected_none (cond : HTMLPage → bool) (t : table) :
  (∀ k r, t !! k = Some r → cond (page_of k r) = false) →
  unselected cond t = t ∧ selected cond t = ∅.
Proof.
  intros H. split.
  - apply map_eq. intros k. rewrite unselected_lookup.
    destruct (t !! k) as [r|] eqn:E; [|done]. by rewrite (H k r E).
  - apply map_eq. intros k. rewrite selected_lookup, lookup_empty.
    destruct (t !! k) as [r|] eqn:E; [|done]. by rewrite (H k r E).
Qed.

(** ** Expiry *)

Lemma is_expired_lapsed (now : datetime) (page : HTMLPage) :
  is_expired now page = true ↔ lapsed now (expires_at page).
Proof.
  unfold is_expired, lapsed. destruct (expires_at page) as [e|].
  - rewrite Z.gtb_ltb, Z.ltb_lt. split; [by eauto|].
    by intros (e' & [= <-] & H).
  - split; [done|]. by intros (e & ? & _).
Qed.

Lemma cleanup_filter_lapsed (now : datetime) (page : HTMLPage) :
  cleanup_filter now page = true ↔ lapsed now (expires_at page).
Proof.
  unfold cleanup_filter, lapsed. destruct (expires_at page) as [e|].
  - rewrite bool_decide_true by done. simpl. rewrite Z.ltb_lt.
    split; [by eauto|]. by intros (e' & [= <-] & H).
  - rewrite bool_decide_false by (by intros []). simpl.
    split; [done|]. by intros (e & ? & _).
Qed.

Lemma cleanup_filter_is_expired (now : datetime) (page : HTMLPage) :
  cleanup_filter now page = is_expired now page.
Proof.
  apply eq_true_iff_eq. by rewrite cleanup_filter_lapsed, is_expired_lapsed.
Qed.

(** C2. A page is expired exactly when its [expires_at] is present and
    strictly less than the current time: a page without [expires_at] is
    never expired, and a page whose [expires_at] is the current time
    itself is not expired. *)
Theorem is_expired_iff (now : datetime) (page : HTMLPage) :
  (is_expired now page = true
   ↔ ∃ e, expires_at page = Some e ∧ e < now)
  ∧ (expires_at page = None → is_expired now page = false)
  ∧ (expires_at page = Some now → is_expired now page = false).
Proof.
  split; [apply is_expired_lapsed|].
  unfold is_expired. split; intros ->; [done|].
  rewrite Z.gtb_ltb. apply Z.ltb_irrefl.
Qed.

(** ** The clean-up job *)

Section Cleanup.

Variable env : Env.
Variable t : table.
Hypothesis Hdelete : delete_ok env = true.
Hypothesis Hcommit : commit_ok env = true.

Let now := now_cleanup env.

(** With the database answering, the job ends normally, leaves the rows
    its filter does not select, and prints the count when positive. *)
Lemma run_cleanup_expired_pages :
  run (cleanup_expired_pages env) t
  = let deleted := Z.of_nat (size (selected (cleanup_filter now) t)) in
    {| outcome := Ok tt;
       table_after := unselected (cleanup_filter now) t;
       printed :=
         if deleted >? 0
         then ["Cleaned up " +:+ str_of_int deleted +:+ " expired page(s)"]
         else [] |}.
Proof.
  unfold run, cleanup_expired_pages, bind, query_delete, db_commit.
  rewrite Hdelete, Hcommit. cbn.
  fold now. by destruct (_ >? 0).
Qed.

Lemma cleanup_table_after :
  table_after (run (cleanup_expired_pages env) t)
  = unselected (cleanup_filter now) t.
Proof. by rewrite run_cleanup_expired_pages. Qed.

End Cleanup.

Lemma cleanup_lookup_Some (now : datetime) (t : table) (k : string) (r : Row) :
  unselected (cleanup_filter now) t !! k = Some r
  ↔ t !! k = Some r ∧ ¬ lapsed now (row_expires_at r).
Proof.
  rewrite unselected_lookup.
  destruct (t !! k) as [r'|]; [|by split; [|intros []]].
  pose proof (cleanup_filter_lapsed now (page_of k r')) as Hl. simpl in Hl.
  destruct (cleanup_filter now (page_of k r')).
  - split; [done|]. intros [[= <-] Hn]. destruct Hn. by apply Hl.
  - split.
    + intros [= <-]. split; [done|]. intros Hn. by apply Hl in Hn.
    + by intros [? _].
Qed.

Lemma run_query_delete (cond : HTMLPage → bool) (t : table) :
  outcome (run (query_delete true cond) t)
  = Ok (Z.of_nat (size (selected cond t))).
Proof. done. Qed.

(** C5, as the code has it.  The clean-up removes exactly the rows whose
    [expires_at] is present and strictly less than the time it reads, and
    no other row.  It returns nothing: the number of rows removed is the
    count of its bulk delete, which the job only prints, when it is
    positive.  Run again on the resulting table, with no row of the table
    lapsing between the two readings of the clock, it removes nothing. *)
Theorem cleanup_removes_exactly_the_lapsed (env1 env2 : Env) (t : table) :
  delete_ok env1 = true → commit_ok env1 = true →
  delete_ok env2 = true → commit_ok env2 = true →
  (∀ k r e, t !! k = Some r → row_expires_at r = Some e →
            ¬ (now_cleanup env1 ≤ e < now_cleanup env2)) →
  let first := run (cleanup_expired_pages env1) t in
  let second := run (cleanup_expired_pages env2) (table_after first) in
  let removed := Z.of_nat (size t) - Z.of_nat (size (table_after first)) in
  outcome first = Ok tt
  ∧ (∀ k r, table_after first !! k = Some r
            ↔ t !! k = Some r ∧ ¬ lapsed (now_cleanup env1) (row_expires_at r))
  ∧ outcome (run (query_delete (delete_ok env1)
                    (cleanup_filter (now_cleanup env1))) t) = Ok removed
  ∧ printed first
    = (if removed >? 0
       then ["Cleaned up " +:+ str_of_int removed +:+ " expired page(s)"]
       else [])
  ∧ outcome second = Ok tt
  ∧ table_after second = table_after first
  ∧ outcome (run (query_delete (delete_ok env2)
                    (cleanup_filter (now_cleanup env2))) (table_after first))
    = Ok 0
  ∧ printed second = [].
Proof.
  intros Hd1 Hc1 Hd2 Hc2 Hgap first second removed.
  subst first second removed.
  rewrite (run_cleanup_expired_pages env1 t Hd1 Hc1).
  cbn [outcome table_after printed].
  set (t1 := unselected (cleanup_filter (now_cleanup env1)) t).
  rewrite (run_cleanup_expired_pages env2 t1 Hd2 Hc2).
  cbn [outcome table_after printed].
  rewrite Hd1, Hd2, !run_query_delete.
  pose proof (selected_unselected_size (cleanup_filter (now_cleanup env1)) t)
    as Hsize. fold t1 in Hsize.
  assert (Z.of_nat (size t) - Z.of_nat (size t1)
          = Z.of_nat (size (selected (cleanup_filter (now_cleanup env1)) t)))
    as -> by lia.
  destruct (unselected_none (cleanup_filter (now_cleanup env2)) t1) as [-> ->].
  { intros k r [Hk Hn]%cleanup_lookup_Some.
    destruct (cleanup_filter (now_cleanup env2) (page_of k r)) eqn:E; [|done].
    apply cleanup_filter_lapsed in E as (e & He & Hlt). simpl in He.
    destruct (decide (e < now_cleanup env1)) as [Hlt1|Hge].
    - destruct Hn. by exists e.
    - destruct (Hgap k r e Hk He). lia. }
  rewrite map_size_empty. simpl.
  split; [done|]. split; [|done].
  intros k r. apply cleanup_lookup_Some.
Qed.

(** ** Reading a page *)

(** Unfolds a handler down to the table. *)
Ltac run_handler :=
  unfold run, view_page, page_info, bind, ret, raise, lift, query_first,
    db_delete, db_add, db_commit; cbn.

Section Read.

Variable env : Env.
Variable page_id : string.
Variable t : table.

Let now := now_is_expired env.

Lemma run_view_page :
  run (view_page env page_id) t
  = if select_ok env then
      match t !! page_id with
      | None => {| outcome := not_found; table_after := t; printed := [] |}
      | Some r =>
          if is_expired now (page_of page_id r) then purge env page_id t
          else {| outcome := Ok (row_content r); table_after := t;
                  printed := [] |}
      end
    else {| outcome := Raise OperationalError; table_after := t;
            printed := [] |}.
Proof.
  run_handler. unfold purge. fold now.
  destruct (select_ok env); [|done].
  destruct (t !! page_id) as [r|]; [|done]. cbn.
  destruct (is_expired now (page_of page_id r)); [|done].
  destruct (commit_ok env); done.
Qed.

Lemma run_page_info :
  run (page_info env page_id) t
  = if select_ok env then
      match t !! page_id with
      | None => {| outcome := not_found; table_after := t; printed := [] |}
      | Some r =>
          if is_expired now (page_of page_id r) then purge env page_id t
          else {| outcome := info_of env page_id r; table_after := t; printed := [] |}
      end
    else {| outcome := Raise OperationalError; table_after := t;
            printed := [] |}.
Proof.
  run_handler. unfold purge, info_of. fold now.
  destruct (select_ok env); [|done].
  destruct (t !! page_id) as [r|]; [|done]. cbn.
  destruct (is_expired now (page_of page_id r)).
  - destruct (commit_ok env); done.
  - by destruct (row_created_at r).
Qed.

End Read.

Lemma lapsed_is_expired (now : datetime) (page_id : string) (r : Row) :
  lapsed now (row_expires_at r) ↔ is_expired now (page_of page_id r) = true.
Proof. by rewrite is_expired_lapsed. Qed.

Lemma not_lapsed_is_expired (now : datetime) (page_id : string) (r : Row) :
  ¬ lapsed now (row_expires_at r) ↔ is_expired now (page_of page_id r) = false.
Proof.
  rewrite (lapsed_is_expired now page_id).
  by destruct (is_expired now (page_of page_id r)).
Qed.

(** C9. For a page that is present and not expired, the view returns its
    content and the info its metadata, every field as stored, and the
    table is left exactly as it was. *)
Theorem live_read_has_no_effect
    (env : Env) (page_id : string) (t : table) (r : Row) :
  select_ok env = true →
  t !! page_id = Some r →
  ¬ lapsed (now_is_expired env) (row_expires_at r) →
  run (view_page env page_id) t
  = {| outcome := Ok (row_content r); table_after := t; printed := [] |}
  ∧ run (page_info env page_id) t
    = {| outcome := info_of env page_id r; table_after := t; printed := [] |}
  ∧ ∀ created, row_created_at r = Some created →
      ∃ info, info_of env page_id r = Ok info
              ∧ info_id info = page_id
              ∧ info_created_at info = created
              ∧ info_expires_at info = row_expires_at r
              ∧ info_size_bytes info = row_content_size r.
Proof.
  intros Hs Hr Hlive%(not_lapsed_is_expired _ page_id).
  rewrite run_view_page, run_page_info, Hs, Hr, Hlive.
  split; [done|]. split; [done|].
  intros created Hc. unfold info_of. rewrite Hc. eauto 10.
Qed.

(** C10. The info lookup enforces expiry as the view does: for a page
    that is present but expired it never answers with metadata, and with
    the database answering it deletes the row and answers 404. *)
Theorem page_info_purges_expired
    (env : Env) (page_id : string) (t : table) (r : Row) :
  t !! page_id = Some r →
  lapsed (now_is_expired env) (row_expires_at r) →
  let res := run (page_info env page_id) t in
  (∀ info, outcome res ≠ Ok info)
  ∧ (select_ok env = true → commit_ok env = true →
     outcome res = has_expired
     ∧ status (outcome res) = 404
     ∧ table_after res = delete page_id t
     ∧ table_after res !! page_id = None
     ∧ table_after res = table_after (run (view_page env page_id) t)).
Proof.
  intros Hr Hexp%(lapsed_is_expired _ page_id) res. subst res.
  rewrite run_page_info, run_view_page, Hr, Hexp. unfold purge. split.
  - intros info. by destruct (select_ok env), (commit_ok env).
  - intros -> ->. cbn. by rewrite lookup_delete_eq.
Qed.

(** C8. The read path and the clean-up agree on what is expired: a row is
    removed by a clean-up that reads time [now] exactly when a view that
    reads the same time judges it expired and answers 404 for it. *)
Theorem cleanup_agrees_with_read
    (env_sweep env_read : Env) (page_id : string) (t : table) (r : Row) :
  delete_ok env_sweep = true → commit_ok env_sweep = true →
  select_ok env_read = true → commit_ok env_read = true →
  now_cleanup env_sweep = now_is_expired env_read →
  t !! page_id = Some r →
  let now := now_is_expired env_read in
  let page := page_of page_id r in
  cleanup_filter now page = is_expired now page
  ∧ (table_after (run (cleanup_expired_pages env_sweep) t) !! page_id = None
     ↔ is_expired now page = true)
  ∧ (is_expired now page = true
     ↔ outcome (run (view_page env_read page_id) t) = has_expired).
Proof.
  intros Hd Hc Hs Hc' Hnow Hr now page.
  split; [apply cleanup_filter_is_expired|].
  rewrite cleanup_table_after, unselected_lookup, Hr, Hnow by done.
  fold now page. rewrite cleanup_filter_is_expired.
  rewrite run_view_page, Hs, Hr. fold now page. unfold purge. rewrite Hc'.
  destruct (is_expired now page); cbn; split; split; done.
Qed.

(** C3, as the code has it.  A view of an absent id answers 404 and
    touches nothing.  A view of a present but expired id deletes the row
    and answers 404, and the next view of that id answers 404 again.
    When the delete cannot be committed the failure is not swallowed: the
    view answers with the database error (a 500) and not with 404, and the
    row stays in the table.  The next view of that id, reading a clock
    that is not earlier, still never serves the page: it answers 404 and
    removes the row if its own commit goes through, and fails in the same
    way, leaving the row, if not. *)
Theorem view_page_not_found
    (env env' : Env) (page_id : string) (t : table) :
  select_ok env = true → select_ok env' = true →
  let res := run (view_page env page_id) t in
  let next := run (view_page env' page_id) (table_after res) in
  (t !! page_id = None
   → res = {| outcome := not_found; table_after := t; printed := [] |})
  ∧ ∀ r, t !! page_id = Some r →
         lapsed (now_is_expired env) (row_expires_at r) →
         (commit_ok env = true →
          outcome res = has_expired
          ∧ status (outcome res) = 404
          ∧ table_after res = delete page_id t
          ∧ next = {| outcome := not_found; table_after := delete page_id t;
                      printed := [] |}
          ∧ status (outcome next) = 404)
         ∧ (commit_ok env = false →
            outcome res = Raise OperationalError
            ∧ status (outcome res) = 500
            ∧ table_after res = t
            ∧ (now_is_expired env ≤ now_is_expired env' →
               (commit_ok env' = true →
                next = {| outcome := has_expired;
                          table_after := delete page_id t; printed := [] |}
                ∧ status (outcome next) = 404)
               ∧ (commit_ok env' = false →
                  next = {| outcome := Raise OperationalError;
                            table_after := t; printed := [] |}
                  ∧ status (outcome next) = 500))).
Proof.
  intros Hs Hs' res next. subst res next. rewrite run_view_page, Hs. split.
  - by intros ->.
  - intros r Hr Hexp. rewrite Hr.
    rewrite (proj1 (lapsed_is_expired _ page_id r) Hexp). unfold purge.
    split; intros Hc; rewrite Hc; cbn [outcome table_after].
    + rewrite run_view_page, Hs', lookup_delete_eq. by split_and!.
    + split_and!; try done.
      intros Hlater. rewrite run_view_page, Hs', Hr.
      destruct Hexp as (e & He & Hlt).
      assert (lapsed (now_is_expired env') (row_expires_at r)) as Hexp'
        by (exists e; split; [done|lia]).
      rewrite (proj1 (lapsed_is_expired _ page_id r) Hexp').
      unfold purge. split; by intros ->.
Qed.

(** C7, as the code has it.  A view of an id that was never created and a
    view of an id whose page has expired both answer with status 404, but
    not with the same response: the detail of the first is "Page not
    found" and that of the second "Page has expired". *)
Theorem not_found_details
    (env1 env2 : Env) (never expired : string) (t : table) (r : Row) :
  select_ok env1 = true → select_ok env2 = true → commit_ok env2 = true →
  t !! never = None →
  t !! expired = Some r →
  lapsed (now_is_expired env2) (row_expires_at r) →
  let a := outcome (run (view_page env1 never) t) in
  let b := outcome (run (view_page env2 expired) t) in
  status a = 404 ∧ status b = 404
  ∧ a = Raise (HTTPException 404 "Page not found")
  ∧ b = Raise (HTTPException 404 "Page has expired")
  ∧ a ≠ b.
Proof.
  intros Hs1 Hs2 Hc Hn Hr Hexp a b. subst a b.
  rewrite !run_view_page, Hs1, Hs2, Hn, Hr.
  rewrite (proj1 (lapsed_is_expired _ expired r) Hexp).
  unfold purge. rewrite Hc. cbn. by repeat split.
Qed.

(** ** Retention *)

Lemma calculate_expiration_expiry (now : datetime) (days : option Z) :
  0 ≤ now →
  (∀ d, days = Some d → now + d * us_per_day ≤ datetime_max) →
  calculate_expiration now days = Ok (expiry now days).
Proof.
  intros Hnow Hfit. destruct days as [d|]; [|done].
  specialize (Hfit d eq_refl).
  unfold calculate_expiration, expiry.
  destruct (Z.leb_spec d 0); [done|].
  unfold timedelta_days, datetime_add, timedelta_max_days, datetime_min,
    datetime_max, us_per_day in *.
  zcases. done.
Qed.

Lemma calculate_expiration_raise (now : datetime) (days : option Z) (e : exn) :
  calculate_expiration now days = Raise e → e = OverflowError.
Proof.
  unfold calculate_expiration, timedelta_days, datetime_add.
  intros H. repeat case_match; by simplify_eq.
Qed.

Lemma EXPIRATION_OPTIONS_lookup (R : string) (days : option Z) :
  EXPIRATION_OPTIONS !! R = Some days →
  days = Some 1 ∨ days = Some 7 ∨ days = Some 30 ∨ days = None.
Proof.
  unfold EXPIRATION_OPTIONS. cbn [list_to_map foldr curry fst snd].
  rewrite !lookup_insert_Some, lookup_empty.
  intros [[_ <-]|[_ [[_ <-]|[_ [[_ <-]|[_ [[_ <-]|[_ ?]]]]]]]]; auto.
  discriminate.
Qed.

(** ** Uploading *)

Lemma strip_nonempty (C : str) :
  strip C ≠ [] → truthy C = true ∧ truthy (strip C) = true.
Proof.
  intros H. split.
  - by destruct C.
  - by destruct (strip C).
Qed.

(** The part of [upload_html] after the content is in hand. *)
Ltac run_upload_tail HC HS HR Hexp Hb Hc Hfresh :=
  rewrite HC, HS; cbn [negb orb]; rewrite HR;
  unfold lift; rewrite Hexp, Hb;
  unfold ret, db_add, db_commit; rewrite Hc;
  cbn [rows pending stdout app apply_stmts apply_stmt id content expires_at
       content_size];
  unfold generate_id, row_of; rewrite Hfresh;
  cbn [created_at content expires_at content_size];
  by destruct (contains "application/json" _ || contains "text/plain" _).

Section Upload.

Variable BASE_URL : string.
Variable MAX_UPLOAD_SIZE : Z.
Variable max_size_mb : string.

(** A valid submission with a fresh token and a database that answers is
    stored and acknowledged. *)
Lemma run_upload_html (env : Env) (C : str) html_content html_file
    (R : string) (days : option Z) (accept : string) (t : table) :
  submits C html_content html_file →
  valid_content MAX_UPLOAD_SIZE C →
  EXPIRATION_OPTIONS !! R = Some days →
  t !! token_urlsafe env = None →
  commit_ok env = true →
  0 ≤ now_calculate env →
  now_calculate env + 30 * us_per_day ≤ datetime_max →
  ∃ b, Utf8.encode C = Some b ∧
  run (upload_html BASE_URL MAX_UPLOAD_SIZE max_size_mb env
         html_content html_file R accept) t
  = let page_id := token_urlsafe env in
    let expires := expiry (now_calculate env) days in
    let link := BASE_URL +:+ "/link/" +:+ page_id in
    {| outcome :=
         Ok (if contains "application/json" accept
                || contains "text/plain" accept
             then JSONResponse
                    {| json_success := true; json_link := link;
                       json_id := page_id; json_expires_at := expires;
                       json_size_bytes := len b |}
             else TemplateResponse
                    {| ctx_success := true; ctx_link := link;
                       ctx_expires_at := expires;
                       ctx_time_remaining :=
                         time_remaining (now_remaining env)
                           {| id := page_id; content := C; created_at := None;
                              expires_at := expires; content_size := len b |} |});
       table_after :=
         <[page_id := {| row_content := C;
                         row_created_at := Some (now_default env);
                         row_expires_at := expires;
                         row_content_size := len b |}]> t;
       printed := [] |}.
Proof.
  intros Hsub [Hstrip (b & Hb & Hlen)] HR Hfresh Hc Hnow Hmax.
  exists b. split; [done|].
  destruct (strip_nonempty C Hstrip) as [HC HS].
  assert (calculate_expiration (now_calculate env) days
          = Ok (expiry (now_calculate env) days)) as Hexp.
  { apply calculate_expiration_expiry; [done|].
    intros d ->. apply EXPIRATION_OPTIONS_lookup in HR.
    unfold us_per_day in *.
    destruct HR as [[= ->]|[[= ->]|[[= ->]|[=]]]]; lia. }
  assert ((len b >? MAX_UPLOAD_SIZE) = false) as Hfit
    by (rewrite Z.gtb_ltb; by apply Z.ltb_ge).
  unfold run, upload_html, bind.
  destruct Hsub as [hf Hnf | hc a name raw Hdec].
  - destruct hf as [[fname fbytes]|]; cbn [filename file_bytes];
      [destruct Hnf as [Hn|Hn]; simpl in Hn; rewrite Hn|].
    all: rewrite HC, Hb, Hfit; unfold ret at 1; cbv beta iota.
    all: run_upload_tail HC HS HR Hexp Hb Hc Hfresh.
  - pose proof (decode_encode raw C Hdec) as Hraw.
    assert (b = raw) as -> by congruence.
    cbn [filename file_bytes]. rewrite Hfit, Hdec.
    unfold ret at 1; cbv beta iota.
    run_upload_tail HC HS HR Hexp Hb Hc Hfresh.
Qed.

(** C1. A valid text [C] submitted with retention selector [R] is stored
    under the returned id, and a fetch of that id right afterwards (less
    than the shortest retention later) gives back [C] itself, the number
    of bytes of its UTF-8 encoding as size, and an [expires_at] that is
    null when [R] is indefinite and otherwise [R] days after [created_at],
    less the time [tol] that passed between the two readings of the clock
    at creation. *)
Theorem upload_then_fetch (env env' : Env) (C : str) html_content html_file
    (R : string) (days : option Z) (accept : string) (t : table) (tol : Z) :
  submits C html_content html_file →
  valid_content MAX_UPLOAD_SIZE C →
  EXPIRATION_OPTIONS !! R = Some days →
  t !! token_urlsafe env = None →
  commit_ok env = true → select_ok env' = true →
  0 ≤ now_calculate env →
  now_calculate env + 30 * us_per_day ≤ datetime_max →
  now_calculate env ≤ now_default env ≤ now_calculate env + tol →
  now_is_expired env' ≤ now_calculate env + us_per_day →
  let upload := run (upload_html BASE_URL MAX_UPLOAD_SIZE max_size_mb env
                       html_content html_file R accept) t in
  let page_id := token_urlsafe env in
  let t' := table_after upload in
  ∃ response b info,
    outcome upload = Ok response
    ∧ match response with
      | JSONResponse body =>
          json_id body = page_id
          ∧ json_link body = BASE_URL +:+ "/link/" +:+ page_id
      | TemplateResponse context =>
          ctx_link context = BASE_URL +:+ "/link/" +:+ page_id
      end
    ∧ Utf8.encode C = Some b
    ∧ run (view_page env' page_id) t'
      = {| outcome := Ok C; table_after := t'; printed := [] |}
    ∧ run (page_info env' page_id) t'
      = {| outcome := Ok info; table_after := t'; printed := [] |}
    ∧ info_id info = page_id
    ∧ info_size_bytes info = len b
    ∧ info_created_at info = now_default env
    ∧ match days with
      | None => info_expires_at info = None
      | Some d =>
          ∃ e, info_expires_at info = Some e
               ∧ info_created_at info + d * us_per_day - tol ≤ e
                 ≤ info_created_at info + d * us_per_day
      end.
Proof.
  intros Hsub Hvalid HR Hfresh Hc Hs Hnow Hmax Htol Hsoon upload page_id t'.
  destruct (run_upload_html env C html_content html_file R days accept t)
    as (b & Hb & Hrun); try done.
  subst upload t'. rewrite Hrun. cbn zeta. cbn [outcome table_after].
  fold page_id.
  set (expires := expiry (now_calculate env) days).
  set (row := {| row_content := C; row_created_at := Some (now_default env);
                 row_expires_at := expires; row_content_size := len b |}).
  assert (Hdays : days = Some 1 ∨ days = Some 7 ∨ days = Some 30 ∨ days = None)
    by by apply (EXPIRATION_OPTIONS_lookup R).
  assert (Hlive : is_expired (now_is_expired env') (page_of page_id row) = false).
  { apply not_lapsed_is_expired. intros (e & He & Hlt). simpl in He.
    unfold expires, expiry, us_per_day in *.
    destruct Hdays as [->|[->|[->| ->]]]; simpl in He; simplify_eq; lia. }
  eexists _, b, _. split; [done|]. split.
  { by destruct (contains "application/json" accept
                 || contains "text/plain" accept). }
  split; [done|].
  rewrite run_view_page, run_page_info, Hs, lookup_insert_eq, Hlive.
  unfold info_of. cbn.
  do 5 (split; [done|]).
  unfold expires, expiry.
  destruct Hdays as [->|[->|[->| ->]]]; simpl; try done.
  all: eexists; split; [done|lia].
Qed.

(** An upload that raises, for whatever reason, writes nothing. *)
Lemma upload_html_raise_writes_nothing (env : Env) html_content html_file
    (expiration accept : string) (t : table) (e : exn) :
  let upload := run (upload_html BASE_URL MAX_UPLOAD_SIZE max_size_mb env
                       html_content html_file expiration accept) t in
  outcome upload = Raise e → table_after upload = t ∧ printed upload = [].
Proof.
  unfold run, upload_html, bind, ret, raise, lift, db_add, db_commit.
  cbn [rows pending stdout app apply_stmts apply_stmt].
  intros H. repeat case_match; cbn [outcome table_after printed] in *;
    by simplify_eq.
Qed.

Lemma api_upload_html_raise_writes_nothing (env : Env) html_file
    (expiration : Z) (t : table) (e : exn) :
  let upload := run (api_upload_html BASE_URL MAX_UPLOAD_SIZE max_size_mb env
                       html_file expiration) t in
  outcome upload = Raise e → table_after upload = t ∧ printed upload = [].
Proof.
  unfold run, api_upload_html, bind, ret, raise, lift, db_add, db_commit.
  cbn [rows pending stdout app apply_stmts apply_stmt].
  intros H. repeat case_match; cbn [outcome table_after printed] in *;
    by simplify_eq.
Qed.

(** X9. Whatever [/upload] is sent, an exception it raises is one of
    the four refusals of the handler (413 for a file or a text too large,
    400 for no content or an invalid selector), a codec error, an expiry
    out of range, or a database error. *)
Lemma upload_html_raise_kinds (env : Env) html_content html_file
    (expiration accept : string) (t : table) (e : exn) :
  outcome (run (upload_html BASE_URL MAX_UPLOAD_SIZE max_size_mb env
                  html_content html_file expiration accept) t) = Raise e →
  e = HTTPException 413
        ("File too large. Maximum size is " +:+ max_size_mb +:+ "MB")
  ∨ e = HTTPException 413
          ("Content too large. Maximum size is " +:+ max_size_mb +:+ "MB")
  ∨ e = HTTPException 400 "No HTML content provided"
  ∨ e = HTTPException 400 "Invalid expiration option"
  ∨ e = UnicodeDecodeError ∨ e = UnicodeEncodeError ∨ e = OverflowError
  ∨ e = OperationalError ∨ e = IntegrityError.
Proof.
  unfold run, upload_html, bind, ret, raise, lift, db_add, db_commit.
  cbn [rows pending stdout app apply_stmts apply_stmt].
  intros H. repeat case_match; cbn [outcome] in *; simplify_eq; auto 10.
  all: match goal with
       | H : calculate_expiration _ _ = Raise _ |- _ =>
           apply calculate_expiration_raise in H as ->; auto 10
       end.
Qed.

(** X10. Whatever [/api/upload] is sent, an exception it raises is one
    of its four refusals (400 for no file, for bytes that are not UTF-8
    and for an empty file, 413 for a file too large), an expiry out of
    range, or a database error; a codec error never escapes it. *)
Lemma api_upload_html_raise_kinds (env : Env) html_file
    (expiration : Z) (t : table) (e : exn) :
  outcome (run (api_upload_html BASE_URL MAX_UPLOAD_SIZE max_size_mb env
                  html_file expiration) t) = Raise e →
  e = HTTPException 400 "No file provided"
  ∨ e = HTTPException 413
          ("File too large. Maximum size is " +:+ max_size_mb +:+ "MB")
  ∨ e = HTTPException 400 "File must be valid UTF-8 text"
  ∨ e = HTTPException 400 "Empty file"
  ∨ e = OverflowError ∨ e = OperationalError ∨ e = IntegrityError.
Proof.
  unfold run, api_upload_html, bind, ret, raise, lift, db_add, db_commit.
  cbn [rows pending stdout app apply_stmts apply_stmt].
  intros H. repeat case_match; cbn [outcome] in *; simplify_eq; auto 10.
  all: match goal with
       | H : calculate_expiration _ _ = Raise _ |- _ =>
           apply calculate_expiration_raise in H as ->; auto 10
       end.
Qed.

(** A valid file sent to [/api/upload] with a fresh token and a database
    that answers is stored with the expiry its day count gives. *)
Lemma run_api_upload_html (env : Env) (file : UploadFile) (C : str)
    (expiration : Z) (t : table) :
  Utf8.decode (file_bytes file) = Some C →
  strip C ≠ [] →
  len (file_bytes file) ≤ MAX_UPLOAD_SIZE →
  t !! token_urlsafe env = None →
  commit_ok env = true →
  0 ≤ now_calculate env →
  (0 < expiration →
   now_calculate env + expiration * us_per_day ≤ datetime_max) →
  run (api_upload_html BASE_URL MAX_UPLOAD_SIZE max_size_mb env
         (Some file) expiration) t
  = let page_id := token_urlsafe env in
    let expires := expiry (now_calculate env) (Some expiration) in
    {| outcome :=
         Ok {| json_success := true;
               json_link := BASE_URL +:+ "/link/" +:+ page_id;
               json_id := page_id; json_expires_at := expires;
               json_size_bytes := len (file_bytes file) |};
       table_after :=
         <[page_id := {| row_content := C;
                         row_created_at := Some (now_default env);
                         row_expires_at := expires;
                         row_content_size := len (file_bytes file) |}]> t;
       printed := [] |}.
Proof.
  intros Hdec Hstrip Hlen Hfresh Hc Hnow Hmax.
  destruct (strip_nonempty C Hstrip) as [_ HS].
  assert ((len (file_bytes file) >? MAX_UPLOAD_SIZE) = false) as Hfit
    by (rewrite Z.gtb_ltb; by apply Z.ltb_ge).
  assert (calculate_expiration (now_calculate env)
            (if expiration <=? 0 then None else Some expiration)
          = Ok (expiry (now_calculate env) (Some expiration))) as Hexp.
  { unfold expiry. destruct (Z.leb_spec expiration 0) as [Hle|Hlt]; [done|].
    rewrite calculate_expiration_expiry; [|done|].
    - unfold expiry. by rewrite (proj2 (Z.leb_gt _ _) Hlt).
    - intros d [= <-]. auto. }
  unfold run, api_upload_html, bind.
  rewrite Hfit, Hdec, HS. cbn [negb].
  unfold lift; rewrite Hexp.
  unfold ret, db_add, db_commit; rewrite Hc.
  cbn [rows pending stdout app apply_stmts apply_stmt id content expires_at
       content_size].
  unfold generate_id, row_of; rewrite Hfresh.
  by cbn [created_at content expires_at content_size].
Qed.

End Upload.

(** C4, as the code has it.  A retention that is absent, zero or negative
    gives no expiry; a positive number of days [n] gives the expiry
    [now + n] days, provided that instant is still a [datetime] (not past
    the year 9999); and [/api/upload] stores a page with exactly that
    expiry for the day count it is sent. *)
Theorem retention_rule (now : datetime) :
  datetime_min ≤ now ≤ datetime_max →
  calculate_expiration now None = Ok None
  ∧ (∀ n, n ≤ 0 → calculate_expiration now (Some n) = Ok None)
  ∧ (∀ n, 0 < n → now + n * us_per_day ≤ datetime_max →
          calculate_expiration now (Some n) = Ok (Some (now + n * us_per_day)))
  ∧ (∀ BASE_URL MAX_UPLOAD_SIZE max_size_mb env file C n t,
       now_calculate env = now →
       Utf8.decode (file_bytes file) = Some C →
       strip C ≠ [] →
       len (file_bytes file) ≤ MAX_UPLOAD_SIZE →
       t !! token_urlsafe env = None →
       commit_ok env = true →
       (0 < n → now + n * us_per_day ≤ datetime_max) →
       let upload := run (api_upload_html BASE_URL MAX_UPLOAD_SIZE max_size_mb
                            env (Some file) n) t in
       let expires := if n <=? 0 then None else Some (now + n * us_per_day) in
       (∃ body, outcome upload = Ok body ∧ json_expires_at body = expires)
       ∧ row_expires_at <$> table_after upload !! token_urlsafe env
         = Some expires).
Proof.
  intros [Hmin Hmax]. unfold datetime_min in Hmin.
  split; [done|]. split; [|split].
  - intros n Hn. unfold calculate_expiration.
    by rewrite (proj2 (Z.leb_le _ _) Hn).
  - intros n Hn Hfit.
    rewrite calculate_expiration_expiry; [|done|by intros d [= <-]].
    unfold expiry. by rewrite (proj2 (Z.leb_gt _ _) Hn).
  - intros BASE_URL MAX_UPLOAD_SIZE max_size_mb env file C n t
      <- Hdec Hstrip Hlen Hfresh Hc Hfit upload expires.
    subst upload.
    rewrite (run_api_upload_html BASE_URL MAX_UPLOAD_SIZE max_size_mb
               env file C n t) by done.
    cbn zeta. cbn [outcome table_after]. rewrite lookup_insert_eq.
    split; [|done]. eexists. split; [done|]. done.
Qed.

(** ** The statements at sample inputs *)

Section AtSamples.
Import Sample.

Lemma pages_lookup (k : string) (r : Row) :
  pages !! k = Some r → r = old_row ∨ r = live_row ∨ r = kept_row.
Proof.
  unfold pages. rewrite !lookup_insert_Some, lookup_empty.
  intros [[_ <-]|[_ [[_ <-]|[_ [[_ <-]|[_ ?]]]]]]; auto. discriminate.
Qed.

Lemma old_row_lapsed : lapsed new_year (row_expires_at old_row).
Proof. eexists. split; [reflexivity|]. by vm_compute. Qed.

(** C6. A file that is not valid UTF-8, sent to [/upload], is not turned
    away as a validation error: [UnicodeDecodeError] escapes the handler
    and the client gets a 500 without a reason.  The same file sent to
    [/api/upload] is refused with a 400 that names the cause.  Neither
    writes anything. *)
Theorem upload_html_undecodable_file :
  Utf8.decode (file_bytes broken) = None
  ∧ run (upload_html "http://localhost:8000" 5242880 "5.0" env
           None (Some broken) "7" "application/json") pages
    = {| outcome := Raise UnicodeDecodeError; table_after := pages;
         printed := [] |}
  ∧ status (Raise UnicodeDecodeError : result UploadResponse) = 500
  ∧ run (api_upload_html "http://localhost:8000" 5242880 "5.0" env
           (Some broken) 7) pages
    = {| outcome := Raise (HTTPException 400 "File must be valid UTF-8 text");
         table_after := pages; printed := [] |}.
Proof. by vm_compute. Qed.

(** C3 fails where the delete cannot be committed: the caller gets the
    database error, a 500, and not the 404. *)
Lemma view_page_failed_delete_surfaces :
  pages !! "lapsed0000000001"%string = Some old_row
  ∧ is_expired (now_is_expired down) (page_of "lapsed0000000001" old_row) = true
  ∧ run (view_page down "lapsed0000000001") pages
    = {| outcome := Raise OperationalError; table_after := pages;
         printed := [] |}
  ∧ status (outcome (run (view_page down "lapsed0000000001") pages)) = 500
  ∧ status (outcome (run (view_page down "lapsed0000000001") pages)) ≠ 404.
Proof. by vm_compute. Qed.

(** C5 fails on the return value: a clean-up that removes one row and a
    clean-up that removes none return the same thing, Python's [None];
    the count only shows in what the first one prints. *)
Lemma cleanup_returns_no_count :
  Z.of_nat (size pages)
  - Z.of_nat (size (table_after (run (cleanup_expired_pages env) pages))) = 1
  ∧ run (cleanup_expired_pages env) pages
    = {| outcome := Ok tt;
         table_after := delete "lapsed0000000001"%string pages;
         printed := ["Cleaned up 1 expired page(s)"%string] |}
  ∧ run (cleanup_expired_pages env) (delete "lapsed0000000001"%string pages)
    = {| outcome := Ok tt;
         table_after := delete "lapsed0000000001"%string pages;
         printed := [] |}
  ∧ outcome (run (cleanup_expired_pages env) pages)
    = outcome (run (cleanup_expired_pages env)
                 (delete "lapsed0000000001"%string pages)).
Proof. by vm_compute. Qed.

(** C7 fails on the response body: an unknown link and an expired link
    get different details. *)
Lemma unknown_and_expired_links_differ :
  pages !! "neverissued00004"%string = None
  ∧ pages !! "lapsed0000000001"%string = Some old_row
  ∧ outcome (run (view_page env "neverissued00004") pages)
    = Raise (HTTPException 404 "Page not found")
  ∧ outcome (run (view_page env "lapsed0000000001") pages)
    = Raise (HTTPException 404 "Page has expired")
  ∧ outcome (run (view_page env "neverissued00004") pages)
    ≠ outcome (run (view_page env "lapsed0000000001") pages).
Proof. by vm_compute. Qed.

(** C4 fails for a day count too large for a [datetime]: ten million days
    from 2026 is past the year 9999. *)
Lemma ten_million_days_overflow :
  0 < 10000000
  ∧ calculate_expiration new_year (Some 10000000) = Raise OverflowError
  ∧ run (api_upload_html "http://localhost:8000" 5242880 "5.0" env
           (Some page) 10000000) pages
    = {| outcome := Raise OverflowError; table_after := pages;
         printed := [] |}.
Proof. by vm_compute. Qed.

End AtSamples.

Section Witnesses.
Import Sample.

Lemma upload_then_fetch_witness :
  submits hi (Some hi) None
  ∧ valid_content 5242880 hi
  ∧ EXPIRATION_OPTIONS !! "1"%string = Some (Some 1)
  ∧ pages !! token_urlsafe env = None
  ∧ now_is_expired later ≤ now_calculate env + us_per_day
  ∧ ∃ info,
      outcome (run (page_info later (token_urlsafe env))
                 (table_after
                    (run (upload_html "http://localhost:8000" 5242880 "5.0"
                            env (Some hi) None "1" "application/json") pages)))
      = Ok info
      ∧ info_size_bytes info = 11.
Proof.
  assert (submits hi (Some hi) None) as H1 by (by constructor).
  assert (valid_content 5242880 hi) as H2.
  { split; [by vm_compute|]. exists hi. by vm_compute. }
  assert (EXPIRATION_OPTIONS !! "1"%string = Some (Some 1)) as H3
    by (by vm_compute).
  assert (pages !! token_urlsafe env = None) as H4 by (by vm_compute).
  assert (now_is_expired later ≤ now_calculate env + us_per_day) as H5
    by (by vm_compute).
  do 5 (split; [done|]).
  destruct (upload_then_fetch "http://localhost:8000" 5242880 "5.0"
              env later hi (Some hi) None "1" (Some 1) "application/json"
              pages 0 H1 H2 H3 H4)
    as (response & b & info & _ & _ & Hb & _ & Hinfo & _ & Hsize & _);
    try done; try (by vm_compute).
  exists info. rewrite Hinfo. split; [done|].
  rewrite Hsize. vm_compute in Hb. by injection Hb as <-.
Defined.

Lemma cleanup_removes_exactly_the_lapsed_witness :
  (∀ k r e, pages !! k = Some r → row_expires_at r = Some e →
            ¬ (now_cleanup env ≤ e < now_cleanup later))
  ∧ table_after (run (cleanup_expired_pages env) pages)
      !! "lapsed0000000001"%string = None
  ∧ table_after (run (cleanup_expired_pages later)
                   (table_after (run (cleanup_expired_pages env) pages)))
    = table_after (run (cleanup_expired_pages env) pages).
Proof.
  assert (∀ k r e, pages !! k = Some r → row_expires_at r = Some e →
                   ¬ (now_cleanup env ≤ e < now_cleanup later)) as Hgap.
  { intros k r e Hk He.
    destruct (pages_lookup k r Hk) as [->|[->| ->]];
      vm_compute in He; simplify_eq; vm_compute; by intros [? ?]. }
  split; [done|].
  destruct (cleanup_removes_exactly_the_lapsed env later pages
              eq_refl eq_refl eq_refl eq_refl Hgap)
    as (_ & _ & _ & _ & _ & Hsame & _).
  split; [by vm_compute|done].
Defined.

Lemma live_read_has_no_effect_witness :
  pages !! "living0000000002"%string = Some live_row
  ∧ ¬ lapsed (now_is_expired env) (row_expires_at live_row)
  ∧ run (view_page env "living0000000002") pages
    = {| outcome := Ok hi; table_after := pages; printed := [] |}.
Proof.
  assert (¬ lapsed (now_is_expired env) (row_expires_at live_row)) as Hlive.
  { intros (e & He & Hlt). vm_compute in He. simplify_eq.
    by vm_compute in Hlt. }
  split; [done|]. split; [done|].
  by destruct (live_read_has_no_effect env "living0000000002" pages live_row
                 eq_refl eq_refl Hlive) as [-> _].
Defined.

Lemma page_info_purges_expired_witness :
  pages !! "lapsed0000000001"%string = Some old_row
  ∧ lapsed (now_is_expired env) (row_expires_at old_row)
  ∧ outcome (run (page_info env "lapsed0000000001") pages) = has_expired
  ∧ table_after (run (page_info env "lapsed0000000001") pages)
      !! "lapsed0000000001"%string = None.
Proof.
  split; [done|]. split; [apply old_row_lapsed|].
  destruct (page_info_purges_expired env "lapsed0000000001" pages old_row
              eq_refl old_row_lapsed) as [_ H].
  destruct (H eq_refl eq_refl) as (Ho & _ & _ & Hgone & _). by split.
Defined.

Lemma cleanup_agrees_with_read_witness :
  now_cleanup env = now_is_expired env
  ∧ pages !! "lapsed0000000001"%string = Some old_row
  ∧ table_after (run (cleanup_expired_pages env) pages)
      !! "lapsed0000000001"%string = None
  ∧ outcome (run (view_page env "lapsed0000000001") pages) = has_expired.
Proof.
  split; [done|]. split; [done|].
  destruct (cleanup_agrees_with_read env env "lapsed0000000001" pages old_row
              eq_refl eq_refl eq_refl eq_refl eq_refl eq_refl)
    as (_ & Hsweep & Hread).
  assert (is_expired (now_is_expired env)
            (page_of "lapsed0000000001" old_row) = true) as Hexp
    by (by vm_compute).
  split; [by apply Hsweep|by apply Hread].
Defined.

Lemma view_page_not_found_witness :
  select_ok down = true
  ∧ pages !! "lapsed0000000001"%string = Some old_row
  ∧ lapsed (now_is_expired down) (row_expires_at old_row)
  ∧ commit_ok down = false
  ∧ outcome (run (view_page down "lapsed0000000001") pages)
    = Raise OperationalError
  ∧ table_after (run (view_page down "lapsed0000000001") pages) = pages
  ∧ run (view_page later "lapsed0000000001")
        (table_after (run (view_page down "lapsed0000000001") pages))
    = {| outcome := has_expired;
         table_after := delete "lapsed0000000001"%string pages;
         printed := [] |}.
Proof.
  split; [done|]. split; [done|]. split; [apply old_row_lapsed|].
  split; [done|].
  destruct (view_page_not_found down later "lapsed0000000001" pages
              eq_refl eq_refl) as [_ H].
  destruct (H old_row eq_refl old_row_lapsed) as [_ Hdown].
  destruct (Hdown eq_refl) as (Ho & _ & Ht & Hnext).
  split; [done|]. split; [done|].
  destruct Hnext as [Hup _]; [by vm_compute|].
  by destruct (Hup eq_refl) as [-> _].
Defined.

Lemma not_found_details_witness :
  pages !! "neverissued00004"%string = None
  ∧ pages !! "lapsed0000000001"%string = Some old_row
  ∧ lapsed (now_is_expired env) (row_expires_at old_row)
  ∧ status (outcome (run (view_page env "neverissued00004") pages)) = 404
  ∧ status (outcome (run (view_page env "lapsed0000000001") pages)) = 404.
Proof.
  split; [done|]. split; [done|]. split; [apply old_row_lapsed|].
  destruct (not_found_details env env "neverissued00004" "lapsed0000000001"
              pages old_row eq_refl eq_refl eq_refl eq_refl eq_refl
              old_row_lapsed) as (Ha & Hb & _).
  by split.
Defined.

Lemma retention_rule_witness :
  datetime_min ≤ new_year ≤ datetime_max
  ∧ calculate_expiration new_year (Some 30)
    = Ok (Some (new_year + 30 * us_per_day)).
Proof.
  assert (datetime_min ≤ new_year ≤ datetime_max) as Hnow
    by (by vm_compute).
  split; [done|].
  destruct (retention_rule new_year Hnow) as (_ & _ & Hpos & _).
  apply Hpos; by vm_compute.
Defined.

End Witnesses.

(** * Further properties *)

(** ** The UTF-8 codec, both ways *)

Ltac zdiv := Z.to_euclidean_division_equations; lia.

Lemma encode_char_decode (c : Z) (bc rest : bytes) (s : str) :
  Utf8.encode_char c = Some bc → Utf8.decode rest = Some s →
  Utf8.decode (bc ++ rest) = Some (c :: s).
Proof.
  unfold Utf8.encode_char. intros Hc Hr.
  destruct (Z.ltb_spec c 0); [done|].
  destruct (Z.ltb_spec c 0x80).
  { injection Hc as <-. cbn [app Utf8.decode].
    rewrite (proj2 (Z.leb_le 0 c)), (proj2 (Z.ltb_lt c 0x80)) by lia.
    cbn [andb]. by rewrite Hr. }
  destruct (Z.ltb_spec c 0x800).
  { injection Hc as <-. cbn [app Utf8.decode]. unfold Utf8.is_cont.
    rewrite (proj2 (Z.ltb_ge _ 0x80)) by zdiv.
    rewrite andb_false_r.
    rewrite (proj2 (Z.leb_le 0xC2 _)), (proj2 (Z.leb_le _ 0xDF)) by zdiv.
    rewrite (proj2 (Z.leb_le 0x80 _)), (proj2 (Z.leb_le _ 0xBF)) by zdiv.
    cbn [andb]. rewrite Hr. cbn. do 2 f_equal. zdiv. }
  destruct (Z.ltb_spec c 0x10000).
  { destruct (Z.leb_spec 0xD800 c), (Z.leb_spec c 0xDFFF);
      cbn [andb] in Hc; try discriminate; injection Hc as <-.
    all: set (b0 := 0xE0 + c / 4096);
         set (b1 := 0x80 + (c / 64) mod 64); set (b2 := 0x80 + c mod 64).
    all: assert (0xE0 ≤ b0 ≤ 0xEF ∧ 0x80 ≤ b1 ≤ 0xBF ∧ 0x80 ≤ b2 ≤ 0xBF
                 ∧ (b0 = 0xE0 → 0xA0 ≤ b1) ∧ (b0 = 0xED → b1 ≤ 0x9F)
                 ∧ c = (b0 - 0xE0) * 4096 + (b1 - 0x80) * 64 + (b2 - 0x80))
           as (? & ? & ? & ? & ? & Hceq) by (subst b0 b1 b2; zdiv).
    all: clearbody b0 b1 b2; cbn [app Utf8.decode];
         unfold Utf8.second3, Utf8.is_cont.
    all: zcases; rewrite Hr; cbn; do 2 f_equal; lia. }
  destruct (Z.leb_spec c 0x10FFFF); [|done]. injection Hc as <-.
  set (b0 := 0xF0 + c / 262144). set (b1 := 0x80 + (c / 4096) mod 64).
  set (b2 := 0x80 + (c / 64) mod 64). set (b3 := 0x80 + c mod 64).
  assert (0xF0 ≤ b0 ≤ 0xF4 ∧ 0x80 ≤ b1 ≤ 0xBF ∧ 0x80 ≤ b2 ≤ 0xBF
          ∧ 0x80 ≤ b3 ≤ 0xBF
          ∧ (b0 = 0xF0 → 0x90 ≤ b1) ∧ (b0 = 0xF4 → b1 ≤ 0x8F)
          ∧ c = (b0 - 0xF0) * 262144 + (b1 - 0x80) * 4096
                + (b2 - 0x80) * 64 + (b3 - 0x80))
    as (? & ? & ? & ? & ? & ? & Hceq) by (subst b0 b1 b2 b3; zdiv).
  clearbody b0 b1 b2 b3. cbn [app Utf8.decode].
  unfold Utf8.second4, Utf8.is_cont.
  zcases; rewrite Hr; cbn; do 2 f_equal; lia.
Qed.

Lemma encode_decode (s : str) (b : bytes) :
  Utf8.encode s = Some b → Utf8.decode b = Some s.
Proof.
  revert b. induction s as [|c r IH]; intros b H; simpl in H.
  - by injection H as <-.
  - destruct (Utf8.encode_char c) as [bc|] eqn:Hc; [|done].
    destruct (Utf8.encode r) as [br|] eqn:Hr; [|done]. injection H as <-.
    by apply encode_char_decode, IH.
Qed.

Lemma encode_nonempty (s : str) (b : bytes) :
  Utf8.encode s = Some b → s ≠ [] → 0 < len b.
Proof.
  destruct s as [|c r]; [done|]. simpl. intros H _.
  destruct (Utf8.encode_char c) as [bc|] eqn:Hc; [|done].
  destruct (Utf8.encode r) as [br|]; [|done]. injection H as <-.
  unfold Utf8.encode_char in Hc. unfold len. rewrite length_app.
  repeat case_match; simplify_eq; simpl; lia.
Qed.

(** X1. The strict decoder and the encoder are inverse to each other:
    bytes decode to a text exactly when the text encodes to those bytes.
    So what [/upload] stores for a file re-encodes to the file, and a text
    that encodes can always be read back. *)
Theorem utf8_round_trip (s : str) (b : bytes) :
  Utf8.decode b = Some s ↔ Utf8.encode s = Some b.
Proof. split; [apply decode_encode|apply encode_decode]. Qed.

(** ** Expiry and time remaining *)

(** X2. For a clock reading that is a [datetime], [calculate_expiration]
    gives no expiry for an absent or non-positive day count, the instant
    that many days ahead when it is still a [datetime], and
    [OverflowError] otherwise; an expiry it gives is at least one day
    ahead, so the page is not expired for a day. *)
Theorem calculate_expiration_closed_form (now : datetime) (days : option Z) :
  datetime_min ≤ now ≤ datetime_max →
  calculate_expiration now days
  = match days with
    | None => Ok None
    | Some d =>
        if d <=? 0 then Ok None
        else if now + d * us_per_day <=? datetime_max
             then Ok (Some (now + d * us_per_day))
             else Raise OverflowError
    end
  ∧ ∀ e, calculate_expiration now days = Ok (Some e) →
         now + us_per_day ≤ e ≤ datetime_max
         ∧ ∀ page t, expires_at page = Some e → t ≤ now + us_per_day →
                     is_expired t page = false.
Proof.
  intros [Hmin Hmax].
  assert (calculate_expiration now days
          = match days with
            | None => Ok None
            | Some d =>
                if d <=? 0 then Ok None
                else if now + d * us_per_day <=? datetime_max
                     then Ok (Some (now + d * us_per_day))
                     else Raise OverflowError
            end) as Heq.
  { destruct days as [d|]; [|done].
    unfold calculate_expiration, timedelta_days, datetime_add,
      timedelta_max_days, datetime_min, datetime_max, us_per_day in *.
    zcases; done. }
  split; [done|]. rewrite Heq. intros e He.
  destruct days as [d|]; [|done].
  unfold datetime_max, us_per_day in *.
  destruct (Z.leb_spec d 0); [done|].
  destruct (Z.leb_spec (now + d * (86400 * 1000000))
              (3652059 * (86400 * 1000000) - 1)); [|done].
  injection He as <-. split; [lia|].
  intros page t Hp Ht. unfold is_expired. rewrite Hp.
  rewrite Z.gtb_ltb. apply Z.ltb_ge. lia.
Qed.

Section Labels.
Import Stdlib.Strings.Ascii.

Lemma last_char_app (x y : string) :
  y ≠ ""%string → last_char (x +:+ y) = last_char y.
Proof.
  intros Hy. unfold last_char. induction x as [|a x IH]; [done|].
  change (String.list_ascii_of_string (String a x +:+ y))
    with (a :: String.list_ascii_of_string (x +:+ y)).
  destruct (String.list_ascii_of_string (x +:+ y)) as [|a' l] eqn:E.
  - destruct x; [by destruct y|done].
  - by rewrite <- IH.
Qed.

(** X3. [time_remaining] says "Never expires" exactly for a page without
    [expires_at] and "Expired" exactly when [expires_at] is not after the
    clock reading.  An expired page is always labelled "Expired"; the
    label also applies at the expiry instant itself, where [is_expired]
    is still false. *)
Theorem time_remaining_labels (now : datetime) (page : HTMLPage) :
  (time_remaining now page = "Never expires"%string ↔ expires_at page = None)
  ∧ (time_remaining now page = "Expired"%string
     ↔ ∃ e, expires_at page = Some e ∧ e ≤ now)
  ∧ (is_expired now page = true → time_remaining now page = "Expired"%string)
  ∧ (expires_at page = Some now
     → is_expired now page = false
       ∧ time_remaining now page = "Expired"%string).
Proof.
  assert (∀ x, last_char (x +:+ " hour(s)") = Some ")"%char) as Hlast
    by (intros x; by rewrite last_char_app).
  assert (∀ x y, last_char (x +:+ " day(s), " +:+ y +:+ " hour(s)")
                 = Some ")"%char) as Hlast2.
  { intros x y. rewrite last_char_app by (cbn; discriminate).
    rewrite last_char_app by (destruct y; discriminate).
    by rewrite last_char_app. }
  unfold time_remaining, is_expired.
  destruct (expires_at page) as [e|].
  2:{ split_and!; try done. split; [done|]. by intros (? & ? & _). }
  destruct (Z.leb_spec (e - now) 0) as [Hle|Hgt].
  - split_and!.
    + by split.
    + split; [|done]. intros _. exists e. split; [done|lia].
    + done.
    + intros [= ->]. split; [|done]. rewrite Z.gtb_ltb. apply Z.ltb_irrefl.
  - assert (∀ s : string, last_char s = Some ")"%char
              → s ≠ "Never expires"%string ∧ s ≠ "Expired"%string) as Hne.
    { intros s Hs. split; intros ->; done. }
    match goal with
    | |- context [if ?c then ?s1 else ?s2] =>
        assert (last_char (if c then s1 else s2) = Some ")"%char) as Hs
          by (by destruct c);
        destruct (Hne _ Hs) as [Hn He]
    end.
    split_and!.
    + by split.
    + split; [done|]. intros (e' & [= <-] & ?). lia.
    + rewrite Z.gtb_ltb. intros ?%Z.ltb_lt. lia.
    + intros [= ->]. lia.
Qed.

End Labels.

(** X4. For a page that expires after the clock reading,
    [time_remaining] shows whole days [d] and whole hours [h] below 24,
    rounded down: the time left is at least [d] days and [h] hours and
    less than an hour more; the days are left out when there are none. *)
Theorem time_remaining_rounds_down (now e : datetime) (page : HTMLPage) :
  expires_at page = Some e → now < e →
  ∃ d h, 0 ≤ d ∧ 0 ≤ h < 24
         ∧ d * us_per_day + h * (3600 * 1000000) ≤ e - now
           < d * us_per_day + (h + 1) * (3600 * 1000000)
         ∧ time_remaining now page
           = if d >? 0
             then str_of_int d +:+ " day(s), " +:+ str_of_int h +:+ " hour(s)"
             else str_of_int h +:+ " hour(s)".
Proof.
  intros Hp Hlt. unfold time_remaining. rewrite Hp.
  rewrite (proj2 (Z.leb_gt (e - now) 0)) by lia.
  exists ((e - now) / us_per_day),
         ((e - now) mod us_per_day / 1000000 / 3600).
  unfold us_per_day. split_and!; try done.
  all: zdiv.
Qed.

(** ** Identifiers *)

Section Ids.
Import Stdlib.Strings.Ascii Base64.

Lemma alphabet_length : length alphabet = 64%nat.
Proof. reflexivity. Qed.

Lemma alphabet_url_safe : forallb url_safe alphabet = true.
Proof. by vm_compute. Qed.

Lemma alphabet_NoDup : NoDup alphabet.
Proof. apply (bool_decide_unpack (NoDup alphabet)). by vm_compute. Qed.

Lemma char_url_safe (i : Z) : 0 ≤ i < 64 → url_safe (char i) = true.
Proof.
  intros Hi. pose proof alphabet_url_safe as H.
  rewrite forallb_forall in H. apply H. unfold char.
  apply nth_In. rewrite alphabet_length. lia.
Qed.

Lemma char_not_pad (i : Z) : 0 ≤ i < 64 → Ascii.eqb (char i) "=" = false.
Proof.
  intros Hi. apply Ascii.eqb_neq. intros Heq.
  pose proof (char_url_safe i Hi) as H. by rewrite Heq in H.
Qed.

Lemma char_inj (i j : Z) : 0 ≤ i < 64 → 0 ≤ j < 64 → char i = char j → i = j.
Proof.
  intros Hi Hj Heq. unfold char in Heq.
  pose proof alphabet_NoDup as Hnd. rewrite NoDup_alt in Hnd.
  destruct (nth_lookup_or_length alphabet (Z.to_nat i) "="%char) as [Hi'|?];
    [|rewrite alphabet_length in *; lia].
  destruct (nth_lookup_or_length alphabet (Z.to_nat j) "="%char) as [Hj'|?];
    [|rewrite alphabet_length in *; lia].
  rewrite Heq in Hi'. pose proof (Hnd _ _ _ Hi' Hj'). lia.
Qed.

Lemma sextets (x y : Z) :
  is_byte x → is_byte y →
  0 ≤ x / 4 < 64 ∧ 0 ≤ x mod 4 * 16 + y / 16 < 64
  ∧ 0 ≤ x mod 16 * 4 + y / 64 < 64 ∧ 0 ≤ x mod 64 < 64.
Proof. unfold is_byte. intros. zdiv. Qed.

Lemma group_inj (x y z x' y' z' : Z) :
  is_byte x → is_byte y → is_byte z → is_byte x' → is_byte y' → is_byte z' →
  char (x / 4) = char (x' / 4) →
  char (x mod 4 * 16 + y / 16) = char (x' mod 4 * 16 + y' / 16) →
  char (y mod 16 * 4 + z / 64) = char (y' mod 16 * 4 + z' / 64) →
  char (z mod 64) = char (z' mod 64) →
  x = x' ∧ y = y' ∧ z = z'.
Proof.
  intros Hx Hy Hz Hx' Hy' Hz' E1 E2 E3 E4.
  apply char_inj in E1; [|apply (sextets x y)|apply (sextets x' y')]; try done.
  apply char_inj in E2; [|apply (sextets x y)|apply (sextets x' y')]; try done.
  apply char_inj in E3; [|apply (sextets y z)|apply (sextets y' z')]; try done.
  apply char_inj in E4; [|apply (sextets z z)|apply (sextets z' z')]; try done.
  unfold is_byte in *. zdiv.
Qed.

Ltac twelve l H :=
  do 12 (destruct l as [|? l]; [discriminate H|]);
  destruct l; [|discriminate H]; clear H.

Ltac bytes_of H :=
  repeat match type of H with
         | Forall _ (_ :: _) => apply Forall_cons in H as [? H]
         end.

Lemma token_of_12_raw (t : bytes) :
  length t = 12%nat → Forall is_byte t →
  rstrip_pad (urlsafe_b64encode t) = urlsafe_b64encode t
  ∧ length (urlsafe_b64encode t) = 16%nat
  ∧ forallb url_safe (urlsafe_b64encode t) = true.
Proof.
  intros Ht Hb. twelve t Ht. bytes_of Hb.
  cbn [urlsafe_b64encode]. unfold rstrip_pad. cbn [rev app lstrip_pad].
  rewrite char_not_pad by (by eapply sextets).
  cbn [rev app]. split; [done|]. split; [done|].
  cbn [forallb].
  repeat match goal with
         | |- context [url_safe (char (?x / 4))] =>
             rewrite (char_url_safe (x / 4)) by (by eapply (sextets x x))
         | |- context [url_safe (char (?x mod 64))] =>
             rewrite (char_url_safe (x mod 64)) by (by eapply (sextets x x))
         | |- context [url_safe (char (?x mod 4 * 16 + ?y / 16))] =>
             rewrite (char_url_safe (x mod 4 * 16 + y / 16))
               by (by eapply (sextets x y))
         | |- context [url_safe (char (?x mod 16 * 4 + ?y / 64))] =>
             rewrite (char_url_safe (x mod 16 * 4 + y / 64))
               by (by eapply (sextets x y))
         end.
  done.
Qed.

Lemma token_of_12_inj (tok tok' : bytes) :
  length tok = 12%nat → Forall is_byte tok →
  length tok' = 12%nat → Forall is_byte tok' →
  token_urlsafe_of tok' = token_urlsafe_of tok → tok' = tok.
Proof.
  intros Hlen Hbytes Hlen' Hbytes'. unfold token_urlsafe_of.
  destruct (token_of_12_raw tok Hlen Hbytes) as (-> & _).
  destruct (token_of_12_raw tok' Hlen' Hbytes') as (-> & _).
  intros Heq%(f_equal String.list_ascii_of_string).
  rewrite !String.list_ascii_of_string_of_list_ascii in Heq.
  twelve tok Hlen. twelve tok' Hlen'. bytes_of Hbytes. bytes_of Hbytes'.
  cbn [urlsafe_b64encode] in Heq.
  injection Heq as E1 E2 E3 E4 E5 E6 E7 E8 E9 E10 E11 E12 E13 E14 E15 E16.
  repeat match goal with
         | Ea : char (?x / 4) = char (?x' / 4),
           Eb : char (_ + ?y / 16) = char (_ + ?y' / 16),
           Ec : char (?y mod 16 * 4 + ?z / 64)
                = char (?y' mod 16 * 4 + ?z' / 64) |- _ =>
             destruct (group_inj x y z x' y' z') as (? & ? & ?);
             [done..|]; clear Ea Eb Ec; subst
         end.
  done.
Qed.

(** X5. When the token comes from twelve random bytes, as
    [token_urlsafe(12)] makes it, the generated id has exactly sixteen
    characters, which is the width of the [id] column, all of them
    letters, digits, hyphens or underscores; and two draws give the same
    id only if they are the same bytes. *)
Theorem generate_id_sixteen (env : Env) (tok : bytes) :
  token_urlsafe env = token_urlsafe_of tok →
  length tok = 12%nat → Forall is_byte tok →
  String.length (generate_id env) = 16%nat
  ∧ forallb url_safe (String.list_ascii_of_string (generate_id env)) = true
  ∧ ∀ env' tok', token_urlsafe env' = token_urlsafe_of tok' →
                 length tok' = 12%nat → Forall is_byte tok' →
                 generate_id env' = generate_id env → tok' = tok.
Proof.
  intros Htok Hlen Hbytes. unfold generate_id. rewrite Htok.
  destruct (token_of_12_raw tok Hlen Hbytes) as (Hraw & Hl & Hsafe).
  split_and!.
  - unfold token_urlsafe_of. rewrite Hraw, <- Hl. clear.
    induction (urlsafe_b64encode tok); [done|]. cbn. by f_equal.
  - unfold token_urlsafe_of.
    by rewrite Hraw, String.list_ascii_of_string_of_list_ascii.
  - intros env' tok' -> Hlen' Hbytes'. by apply token_of_12_inj.
Qed.

End Ids.

(** ** Uploads: what succeeds, what fails, what is left alone *)

(** The end of [upload_html] for content that passed, whatever the token
    and the commit do. *)
Ltac upload_tail HC HS HR Hexp Hb :=
  rewrite HC, HS; cbn [negb orb]; rewrite HR;
  unfold lift; rewrite Hexp, Hb;
  unfold ret, raise, db_add, db_commit;
  cbn [rows pending stdout app apply_stmts apply_stmt id content expires_at
       content_size];
  unfold generate_id, row_of;
  cbn [created_at content expires_at content_size];
  destruct (commit_ok _); [|done];
  destruct (_ !! token_urlsafe _); [done|];
  by destruct (contains "application/json" _ || contains "text/plain" _).

Section UploadMore.

Variable BASE_URL : string.
Variable MAX_UPLOAD_SIZE : Z.
Variable max_size_mb : string.

Lemma upload_html_ok_inv (env : Env) html_content html_file
    (R accept : string) (t : table) (response : UploadResponse) :
  outcome (run (upload_html BASE_URL MAX_UPLOAD_SIZE max_size_mb env
                  html_content html_file R accept) t) = Ok response →
  ∃ C b days expires,
    submits C html_content html_file
    ∧ valid_content MAX_UPLOAD_SIZE C
    ∧ Utf8.encode C = Some b
    ∧ EXPIRATION_OPTIONS !! R = Some days
    ∧ calculate_expiration (now_calculate env) days = Ok expires
    ∧ commit_ok env = true
    ∧ t !! token_urlsafe env = None
    ∧ table_after (run (upload_html BASE_URL MAX_UPLOAD_SIZE max_size_mb env
                          html_content html_file R accept) t)
      = <[token_urlsafe env :=
            {| row_content := C; row_created_at := Some (now_default env);
               row_expires_at := expires; row_content_size := len b |}]> t.
Proof.
  unfold run, upload_html, bind, ret, raise, lift, db_add, db_commit.
  cbn [rows pending stdout app apply_stmts apply_stmt].
  unfold generate_id, row_of.
  cbn [id content created_at expires_at content_size].
  intros H.
  repeat case_match; cbn [outcome table_after printed] in *; simplify_eq.
  all: cbn [rows pending stdout app apply_stmts apply_stmt id content
            created_at expires_at content_size] in *.
  all: destruct (t !! token_urlsafe env) eqn:Hfresh; [discriminate|].
  all: unfold row_of in *;
       cbn [content created_at expires_at content_size] in *.
  all: repeat match goal with
         | H : Some _ = Some _ |- _ => injection H as <-
         | H : negb _ || negb _ = false |- _ =>
             apply orb_false_elim in H as [?%negb_false_iff ?%negb_false_iff]
         | H : (_ >? _) = false |- _ =>
             rewrite Z.gtb_ltb in H; apply Z.ltb_ge in H
         | H : Utf8.decode _ = Some ?l, H' : Utf8.encode ?l = Some _ |- _ =>
             rewrite (decode_encode _ _ H) in H'; injection H' as <-
         end.
  all: match goal with
       | Hc : calculate_expiration _ ?o = Ok ?a |- _ =>
           match goal with
           | H : Utf8.encode ?l = Some ?b |- _ => exists l, b, o, a
           | H : Utf8.decode ?r = Some ?l |- _ => exists l, r, o, a
           end
       end.
  all: split;
    [first [ by apply submits_field; simpl; auto
           | by match goal with
                | u : UploadFile |- _ =>
                    destruct u; simpl in *; subst; apply submits_file
                end ]|].
  all: split; [split; [by destruct (strip _)|by eauto using decode_encode]|].
  all: by eauto 10 using decode_encode.
Qed.

Lemma api_upload_html_ok_inv (env : Env) html_file (expiration : Z)
    (t : table) (body : UploadJSON) :
  outcome (run (api_upload_html BASE_URL MAX_UPLOAD_SIZE max_size_mb env
                  html_file expiration) t) = Ok body →
  ∃ file C expires,
    html_file = Some file
    ∧ Utf8.decode (file_bytes file) = Some C
    ∧ strip C ≠ []
    ∧ len (file_bytes file) ≤ MAX_UPLOAD_SIZE
    ∧ calculate_expiration (now_calculate env)
        (if expiration <=? 0 then None else Some expiration) = Ok expires
    ∧ commit_ok env = true
    ∧ t !! token_urlsafe env = None
    ∧ json_id body = token_urlsafe env
    ∧ json_expires_at body = expires
    ∧ json_size_bytes body = len (file_bytes file)
    ∧ table_after (run (api_upload_html BASE_URL MAX_UPLOAD_SIZE max_size_mb
                          env html_file expiration) t)
      = <[token_urlsafe env :=
            {| row_content := C; row_created_at := Some (now_default env);
               row_expires_at := expires;
               row_content_size := len (file_bytes file) |}]> t.
Proof.
  unfold run, api_upload_html, bind, ret, raise, lift, db_add, db_commit.
  cbn [rows pending stdout app apply_stmts apply_stmt].
  unfold generate_id, row_of.
  cbn [id content created_at expires_at content_size].
  intros H.
  repeat case_match; cbn [outcome table_after printed] in *; simplify_eq.
  all: cbn [rows pending stdout app apply_stmts apply_stmt id content
            created_at expires_at content_size] in *.
  all: destruct (t !! token_urlsafe env) eqn:Hfresh; [discriminate|].
  all: unfold row_of in *;
       cbn [content created_at expires_at content_size] in *.
  all: repeat match goal with
         | H : Some _ = Some _ |- _ => injection H as <-
         | H : negb _ = false |- _ => apply negb_false_iff in H
         | H : (_ >? _) = false |- _ =>
             rewrite Z.gtb_ltb in H; apply Z.ltb_ge in H
         end.
  all: do 3 eexists; split; [done|].
  all: split; [done|].
  all: split; [by destruct (strip _)|].
  all: by repeat split.
Qed.

(** What a submission with content that passes comes to, whatever the
    token and the database do. *)
Lemma run_upload_html_with (env : Env) (C : str) html_content html_file
    (R : string) (days expires : option Z) (accept : string) (t : table) :
  submits C html_content html_file →
  valid_content MAX_UPLOAD_SIZE C →
  EXPIRATION_OPTIONS !! R = Some days →
  calculate_expiration (now_calculate env) days = Ok expires →
  ∃ b, Utf8.encode C = Some b ∧
  run (upload_html BASE_URL MAX_UPLOAD_SIZE max_size_mb env
         html_content html_file R accept) t
  = if commit_ok env then
      match t !! token_urlsafe env with
      | Some _ =>
          {| outcome := Raise IntegrityError; table_after := t;
             printed := [] |}
      | None =>
          let page_id := token_urlsafe env in
          let link := BASE_URL +:+ "/link/" +:+ page_id in
          {| outcome :=
               Ok (if contains "application/json" accept
                      || contains "text/plain" accept
                   then JSONResponse
                          {| json_success := true; json_link := link;
                             json_id := page_id; json_expires_at := expires;
                             json_size_bytes := len b |}
                   else TemplateResponse
                          {| ctx_success := true; ctx_link := link;
                             ctx_expires_at := expires;
                             ctx_time_remaining :=
                               time_remaining (now_remaining env)
                                 {| id := page_id; content := C;
                                    created_at := None;
                                    expires_at := expires;
                                    content_size := len b |} |});
             table_after :=
               <[page_id := {| row_content := C;
                               row_created_at := Some (now_default env);
                               row_expires_at := expires;
                               row_content_size := len b |}]> t;
             printed := [] |}
      end
    else {| outcome := Raise OperationalError; table_after := t;
            printed := [] |}.
Proof.
  intros Hsub [Hstrip (b & Hb & Hlen)] HR Hexp.
  exists b. split; [done|].
  destruct (strip_nonempty C Hstrip) as [HC HS].
  assert ((len b >? MAX_UPLOAD_SIZE) = false) as Hfit
    by (rewrite Z.gtb_ltb; by apply Z.ltb_ge).
  unfold run, upload_html, bind.
  destruct Hsub as [hf Hnf | hc a name raw Hdec].
  - destruct hf as [[fname fbytes]|]; cbn [filename file_bytes];
      [destruct Hnf as [Hn|Hn]; simpl in Hn; rewrite Hn|].
    all: rewrite HC, Hb, Hfit; unfold ret at 1; cbv beta iota.
    all: upload_tail HC HS HR Hexp Hb.
  - pose proof (decode_encode raw C Hdec) as Hraw.
    assert (b = raw) as -> by congruence.
    cbn [filename file_bytes]. rewrite Hfit, Hdec.
    unfold ret at 1; cbv beta iota.
    upload_tail HC HS HR Hexp Hb.
Qed.

(** What a file that passes comes to on [/api/upload], whatever the token
    and the database do. *)
Lemma run_api_upload_html_with (env : Env) (file : UploadFile) (C : str)
    (expiration : Z) (expires : option Z) (t : table) :
  Utf8.decode (file_bytes file) = Some C →
  strip C ≠ [] →
  len (file_bytes file) ≤ MAX_UPLOAD_SIZE →
  calculate_expiration (now_calculate env)
    (if expiration <=? 0 then None else Some expiration) = Ok expires →
  run (api_upload_html BASE_URL MAX_UPLOAD_SIZE max_size_mb env
         (Some file) expiration) t
  = if commit_ok env then
      match t !! token_urlsafe env with
      | Some _ =>
          {| outcome := Raise IntegrityError; table_after := t;
             printed := [] |}
      | None =>
          let page_id := token_urlsafe env in
          {| outcome :=
               Ok {| json_success := true;
                     json_link := BASE_URL +:+ "/link/" +:+ page_id;
                     json_id := page_id; json_expires_at := expires;
                     json_size_bytes := len (file_bytes file) |};
             table_after :=
               <[page_id := {| row_content := C;
                               row_created_at := Some (now_default env);
                               row_expires_at := expires;
                               row_content_size := len (file_bytes file) |}]> t;
             printed := [] |}
      end
    else {| outcome := Raise OperationalError; table_after := t;
            printed := [] |}.
Proof.
  intros Hdec Hstrip Hlen Hexp.
  destruct (strip_nonempty C Hstrip) as [_ HS].
  assert ((len (file_bytes file) >? MAX_UPLOAD_SIZE) = false) as Hfit
    by (rewrite Z.gtb_ltb; by apply Z.ltb_ge).
  unfold run, api_upload_html, bind.
  rewrite Hfit, Hdec, HS. cbn [negb].
  unfold lift; rewrite Hexp.
  unfold ret, raise, db_add, db_commit.
  cbn [rows pending stdout app apply_stmts apply_stmt id content expires_at
       content_size].
  unfold generate_id, row_of.
  cbn [created_at content expires_at content_size].
  destruct (commit_ok env); [|done].
  by destruct (t !! token_urlsafe env).
Qed.

(** X6. [/upload] answers with success exactly when the request carries,
    in the field or in a named file, a text that is not blank and within
    the size limit, the selector is one of the four options and its
    expiry is representable, the token is not yet in the table and the
    commit goes through.  Then exactly one row is written, under the
    token, holding that text, its encoded length, the clock reading of
    the insert and the expiry [calculate_expiration] gives for the day
    count of the selector. *)
Theorem upload_html_success (env : Env) html_content html_file
    (R accept : string) (t : table) :
  let res := run (upload_html BASE_URL MAX_UPLOAD_SIZE max_size_mb env
                    html_content html_file R accept) t in
  ((∃ response, outcome res = Ok response)
   ↔ ∃ C days expires,
       submits C html_content html_file
       ∧ valid_content MAX_UPLOAD_SIZE C
       ∧ EXPIRATION_OPTIONS !! R = Some days
       ∧ calculate_expiration (now_calculate env) days = Ok expires
       ∧ commit_ok env = true
       ∧ t !! token_urlsafe env = None)
  ∧ ∀ response, outcome res = Ok response →
      ∃ C b days expires,
        submits C html_content html_file
        ∧ Utf8.encode C = Some b
        ∧ EXPIRATION_OPTIONS !! R = Some days
        ∧ calculate_expiration (now_calculate env) days = Ok expires
        ∧ t !! token_urlsafe env = None
        ∧ table_after res
          = <[token_urlsafe env :=
                {| row_content := C; row_created_at := Some (now_default env);
                   row_expires_at := expires; row_content_size := len b |}]> t.
Proof.
  intros res. subst res. split; [split|].
  - intros [response Ho].
    apply upload_html_ok_inv in Ho
      as (C & b & days & expires & ? & ? & ? & ? & ? & ? & ? & _).
    exists C, days, expires. by split_and!.
  - intros (C & days & expires & Hsub & Hvalid & HR & Hexp & Hc & Hfresh).
    destruct (run_upload_html_with env C html_content html_file R days
                expires accept t) as (b & _ & ->); try done.
    rewrite Hc, Hfresh. by eexists.
  - intros response Ho.
    apply upload_html_ok_inv in Ho
      as (C & b & days & expires & ? & ? & ? & ? & ? & ? & ? & ?).
    by exists C, b, days, expires.
Qed.

(** X7. [/api/upload] answers with success exactly when it is sent a file
    that is within the size limit, decodes as UTF-8 and is not blank, the
    expiry of the day count is representable, the token is not yet in the
    table and the commit goes through.  Then exactly one row is written
    under the token, and the body reports that token, the expiry stored
    and the number of bytes of the file. *)
Theorem api_upload_html_success (env : Env) html_file (expiration : Z)
    (t : table) :
  let res := run (api_upload_html BASE_URL MAX_UPLOAD_SIZE max_size_mb env
                    html_file expiration) t in
  ((∃ body, outcome res = Ok body)
   ↔ ∃ file C expires,
       html_file = Some file
       ∧ Utf8.decode (file_bytes file) = Some C
       ∧ strip C ≠ []
       ∧ len (file_bytes file) ≤ MAX_UPLOAD_SIZE
       ∧ calculate_expiration (now_calculate env)
           (if expiration <=? 0 then None else Some expiration) = Ok expires
       ∧ commit_ok env = true
       ∧ t !! token_urlsafe env = None)
  ∧ ∀ body, outcome res = Ok body →
      ∃ file C,
        html_file = Some file
        ∧ Utf8.decode (file_bytes file) = Some C
        ∧ json_id body = token_urlsafe env
        ∧ json_size_bytes body = len (file_bytes file)
        ∧ table_after res
          = <[token_urlsafe env :=
                {| row_content := C; row_created_at := Some (now_default env);
                   row_expires_at := json_expires_at body;
                   row_content_size := len (file_bytes file) |}]> t.
Proof.
  intros res. subst res. split; [split|].
  - intros [body Ho].
    apply api_upload_html_ok_inv in Ho
      as (file & C & expires & ? & ? & ? & ? & ? & ? & ? & _).
    exists file, C, expires. by split_and!.
  - intros (file & C & expires & -> & Hdec & Hstrip & Hlen & Hexp & Hc
            & Hfresh).
    rewrite (run_api_upload_html_with env file C expiration expires t)
      by done.
    rewrite Hc, Hfresh. by eexists.
  - intros body Ho.
    apply api_upload_html_ok_inv in Ho
      as (file & C & expires & ? & ? & ? & ? & ? & ? & ? & ? & <- & ? & ?).
    by exists file, C.
Qed.

(** X8. An upload that ends in an exception, on either endpoint and for
    whatever reason, leaves the table exactly as it was and prints
    nothing. *)
Theorem failed_uploads_write_nothing (env : Env) html_content html_file
    (R accept : string) (n : Z) (t : table) (e : exn) :
  (outcome (run (upload_html BASE_URL MAX_UPLOAD_SIZE max_size_mb env
                   html_content html_file R accept) t) = Raise e
   → run (upload_html BASE_URL MAX_UPLOAD_SIZE max_size_mb env
            html_content html_file R accept) t
     = {| outcome := Raise e; table_after := t; printed := [] |})
  ∧ (outcome (run (api_upload_html BASE_URL MAX_UPLOAD_SIZE max_size_mb env
                     html_file n) t) = Raise e
     → run (api_upload_html BASE_URL MAX_UPLOAD_SIZE max_size_mb env
              html_file n) t
       = {| outcome := Raise e; table_after := t; printed := [] |}).
Proof.
  split; intros H.
  - destruct (upload_html_raise_writes_nothing BASE_URL MAX_UPLOAD_SIZE
                max_size_mb env html_content html_file R accept t e H)
      as [Ht Hp].
    destruct (run _ t) as [o ta pr]. cbn in *. by subst.
  - destruct (api_upload_html_raise_writes_nothing BASE_URL MAX_UPLOAD_SIZE
                max_size_mb env html_file n t e H) as [Ht Hp].
    destruct (run _ t) as [o ta pr]. cbn in *. by subst.
Qed.

(** X11. No upload, whatever it is sent and however it ends, changes or
    removes a row that is already in the table: every row is still there
    afterwards, and only the row under the token can be new. *)
Theorem uploads_keep_rows (env : Env) html_content html_file
    (R accept : string) (n : Z) (t : table) :
  let after := table_after (run (upload_html BASE_URL MAX_UPLOAD_SIZE
                                   max_size_mb env html_content html_file
                                   R accept) t) in
  let after_api := table_after (run (api_upload_html BASE_URL MAX_UPLOAD_SIZE
                                       max_size_mb env html_file n) t) in
  (t ⊆ after ∧ ∀ k, k ≠ token_urlsafe env → after !! k = t !! k)
  ∧ (t ⊆ after_api ∧ ∀ k, k ≠ token_urlsafe env → after_api !! k = t !! k).
Proof.
  intros after after_api. subst after after_api. split.
  - destruct (outcome (run (upload_html BASE_URL MAX_UPLOAD_SIZE max_size_mb
                              env html_content html_file R accept) t))
      as [response|e] eqn:Ho.
    + apply upload_html_ok_inv in Ho
        as (C & b & days & expires & _ & _ & _ & _ & _ & _ & Hfresh & ->).
      split; [by apply insert_subseteq|].
      intros k Hk. by rewrite lookup_insert_ne.
    + by apply upload_html_raise_writes_nothing in Ho as [-> _].
  - destruct (outcome (run (api_upload_html BASE_URL MAX_UPLOAD_SIZE
                              max_size_mb env html_file n) t))
      as [response|e] eqn:Ho.
    + apply api_upload_html_ok_inv in Ho
        as (f & C & expires & _ & _ & _ & _ & _ & _ & Hfresh & _ & _ & _ & ->).
      split; [by apply insert_subseteq|].
      intros k Hk. by rewrite lookup_insert_ne.
    + by apply api_upload_html_raise_writes_nothing in Ho as [-> _].
Qed.

(** X12. A submission that passes every check of [upload_html] is still
    refused by the database in two cases, and neither writes anything:
    when the commit fails the caller gets [OperationalError], and when
    the token is already the id of a row the caller gets [IntegrityError]
    and that row stays as it is. *)
Theorem upload_html_storage_refusals (env : Env) (C : str)
    html_content html_file (R : string) (days expires : option Z)
    (accept : string) (t : table) :
  submits C html_content html_file →
  valid_content MAX_UPLOAD_SIZE C →
  EXPIRATION_OPTIONS !! R = Some days →
  calculate_expiration (now_calculate env) days = Ok expires →
  let res := run (upload_html BASE_URL MAX_UPLOAD_SIZE max_size_mb env
                    html_content html_file R accept) t in
  (commit_ok env = false
   → res = {| outcome := Raise OperationalError; table_after := t;
              printed := [] |})
  ∧ (commit_ok env = true → is_Some (t !! token_urlsafe env)
     → res = {| outcome := Raise IntegrityError; table_after := t;
                printed := [] |}).
Proof.
  intros Hsub Hvalid HR Hexp res. subst res.
  destruct (run_upload_html_with env C html_content html_file R days expires
              accept t) as (b & _ & ->); try done.
  split.
  - by intros ->.
  - intros -> [r ->]. done.
Qed.

(** X13. A named file larger than the limit is refused with 413 on both
    endpoints before anything else is looked at: whatever its bytes, the
    form field and the selector are. *)
Theorem oversized_file_refused (env : Env) html_content (a : Ascii.ascii)
    (name : string) (raw : bytes) (R accept : string) (n : Z) (t : table) :
  MAX_UPLOAD_SIZE < len raw →
  let file := {| filename := Some (String a name); file_bytes := raw |} in
  let too_large := HTTPException 413
        ("File too large. Maximum size is " +:+ max_size_mb +:+ "MB") in
  run (upload_html BASE_URL MAX_UPLOAD_SIZE max_size_mb env
         html_content (Some file) R accept) t
  = {| outcome := Raise too_large; table_after := t; printed := [] |}
  ∧ run (api_upload_html BASE_URL MAX_UPLOAD_SIZE max_size_mb env
           (Some file) n) t
    = {| outcome := Raise too_large; table_after := t; printed := [] |}.
Proof.
  intros Hbig file too_large.
  assert ((len raw >? MAX_UPLOAD_SIZE) = true) as Hgt
    by (rewrite Z.gtb_ltb; by apply Z.ltb_lt).
  unfold run, upload_html, api_upload_html, bind, raise.
  cbn [filename file_bytes file]. by rewrite Hgt.
Qed.

(** X14. A text in the form field, with no named file beside it, whose
    encoding is larger than the limit is refused with 413, whatever the
    selector is. *)
Theorem oversized_text_refused (env : Env) (text : str) (b : bytes)
    html_file (R accept : string) (t : table) :
  no_file html_file →
  text ≠ [] →
  Utf8.encode text = Some b →
  MAX_UPLOAD_SIZE < len b →
  run (upload_html BASE_URL MAX_UPLOAD_SIZE max_size_mb env
         (Some text) html_file R accept) t
  = {| outcome := Raise (HTTPException 413
         ("Content too large. Maximum size is " +:+ max_size_mb +:+ "MB"));
       table_after := t; printed := [] |}.
Proof.
  intros Hnf Hne Hb Hbig.
  assert ((len b >? MAX_UPLOAD_SIZE) = true) as Hgt
    by (rewrite Z.gtb_ltb; by apply Z.ltb_lt).
  assert (truthy text = true) as HC by (by destruct text).
  unfold run, upload_html, bind, raise.
  destruct html_file as [[fname fbytes]|]; cbn [filename file_bytes];
    [destruct Hnf as [Hn|Hn]; simpl in Hn; rewrite Hn|].
  all: by rewrite HC, Hb, Hgt.
Qed.

(** X15. Content that is empty or all whitespace, and within the size
    limit, is refused with 400 and nothing is written: by [/upload]
    whether it comes in the field or in a named file (in which case the
    field is not looked at), and by [/api/upload] with its own message. *)
Theorem blank_refused (env : Env) (C : str) html_content html_file
    (R accept : string) (n : Z) (t : table) :
  submits C html_content html_file →
  forallb isspace C = true →
  (∃ b, Utf8.encode C = Some b ∧ len b ≤ MAX_UPLOAD_SIZE) →
  run (upload_html BASE_URL MAX_UPLOAD_SIZE max_size_mb env
         html_content html_file R accept) t
  = {| outcome := Raise (HTTPException 400 "No HTML content provided");
       table_after := t; printed := [] |}
  ∧ (∀ file, html_file = Some file →
       Utf8.decode (file_bytes file) = Some C →
       run (api_upload_html BASE_URL MAX_UPLOAD_SIZE max_size_mb env
              html_file n) t
       = {| outcome := Raise (HTTPException 400 "Empty file");
            table_after := t; printed := [] |}).
Proof.
  intros Hsub Hblank%strip_nil (b & Hb & Hlen).
  assert ((len b >? MAX_UPLOAD_SIZE) = false) as Hfit
    by (rewrite Z.gtb_ltb; by apply Z.ltb_ge).
  split.
  - unfold run, upload_html, bind, ret, raise.
    destruct Hsub as [hf Hnf | hc a name raw Hdec].
    + destruct hf as [[fname fbytes]|]; cbn [filename file_bytes];
        [destruct Hnf as [Hn|Hn]; simpl in Hn; rewrite Hn|].
      all: destruct (truthy C) eqn:HC; [|done].
      all: by rewrite Hb, Hfit, HC, Hblank.
    + pose proof (decode_encode raw C Hdec) as Hraw.
      assert (b = raw) as -> by congruence.
      cbn [filename file_bytes]. by rewrite Hfit, Hdec, Hblank, orb_true_r.
  - intros file -> Hdec.
    pose proof (decode_encode _ C Hdec) as Hraw.
    assert (b = file_bytes file) as -> by congruence.
    unfold run, api_upload_html, bind, ret, raise.
    by rewrite Hfit, Hdec, Hblank.
Qed.

Lemma EXPIRATION_OPTIONS_None (R : string) :
  EXPIRATION_OPTIONS !! R = None
  ↔ R ≠ "1"%string ∧ R ≠ "7"%string ∧ R ≠ "30"%string ∧ R ≠ "0"%string.
Proof.
  unfold EXPIRATION_OPTIONS. cbn [list_to_map foldr curry fst snd].
  rewrite !lookup_insert_None, lookup_empty. intuition congruence.
Qed.

(** X16. [/upload] accepts the selectors "1", "7", "30" and "0" and no
    other: valid content sent with any other selector is refused with
    400 "Invalid expiration option" and nothing is written. *)
Theorem invalid_selector_refused (env : Env) (C : str) html_content html_file
    (R accept : string) (t : table) :
  submits C html_content html_file →
  valid_content MAX_UPLOAD_SIZE C →
  R ≠ "1"%string → R ≠ "7"%string → R ≠ "30"%string → R ≠ "0"%string →
  run (upload_html BASE_URL MAX_UPLOAD_SIZE max_size_mb env
         html_content html_file R accept) t
  = {| outcome := Raise (HTTPException 400 "Invalid expiration option");
       table_after := t; printed := [] |}.
Proof.
  intros Hsub [Hstrip (b & Hb & Hlen)] H1 H7 H30 H0.
  assert (EXPIRATION_OPTIONS !! R = None) as HR
    by (by apply EXPIRATION_OPTIONS_None).
  destruct (strip_nonempty C Hstrip) as [HC HS].
  assert ((len b >? MAX_UPLOAD_SIZE) = false) as Hfit
    by (rewrite Z.gtb_ltb; by apply Z.ltb_ge).
  unfold run, upload_html, bind, ret, raise.
  destruct Hsub as [hf Hnf | hc a name raw Hdec].
  - destruct hf as [[fname fbytes]|]; cbn [filename file_bytes];
      [destruct Hnf as [Hn|Hn]; simpl in Hn; rewrite Hn|].
    all: by rewrite HC, Hb, Hfit, HC, HS, HR.
  - pose proof (decode_encode raw C Hdec) as Hraw.
    assert (b = raw) as -> by congruence.
    cbn [filename file_bytes]. by rewrite Hfit, Hdec, HC, HS, HR.
Qed.

(** X17. A text within the size limit gets the same answer and leaves the
    same table whether [/upload] receives it in the form field or as a
    named file holding its UTF-8 encoding. *)
Theorem field_and_file_agree (env : Env) (C : str) (b : bytes)
    (a : Ascii.ascii) (name : string) (R accept : string) (t : table) :
  Utf8.encode C = Some b →
  len b ≤ MAX_UPLOAD_SIZE →
  run (upload_html BASE_URL MAX_UPLOAD_SIZE max_size_mb env
         (Some C) None R accept) t
  = run (upload_html BASE_URL MAX_UPLOAD_SIZE max_size_mb env None
           (Some {| filename := Some (String a name); file_bytes := b |})
           R accept) t.
Proof.
  intros Hb Hlen. pose proof (encode_decode C b Hb) as Hdec.
  assert ((len b >? MAX_UPLOAD_SIZE) = false) as Hfit
    by (rewrite Z.gtb_ltb; by apply Z.ltb_ge).
  unfold run, upload_html, bind, ret, raise.
  cbn [filename file_bytes]. rewrite Hb, Hdec, Hfit.
  destruct (truthy C) eqn:HC; cbn; rewrite ?HC; cbn; [|done].
  destruct (truthy (strip C)); cbn; [|done].
  by rewrite ?Hb.
Qed.

(** X18. A named file that decodes as UTF-8 is treated alike by the two
    endpoints, [/upload] with a selector and [/api/upload] with the day
    count of that selector: the same table afterwards, the same status,
    and the same JSON body when [/upload] is asked for JSON. *)
Theorem endpoints_agree_on_file (env : Env) (a : Ascii.ascii) (name : string)
    (raw : bytes) (C : str) (R : string) (days : option Z) (accept : string)
    (t : table) :
  Utf8.decode raw = Some C →
  EXPIRATION_OPTIONS !! R = Some days →
  let file := {| filename := Some (String a name); file_bytes := raw |} in
  let n := match days with Some d => d | None => 0 end in
  let web := run (upload_html BASE_URL MAX_UPLOAD_SIZE max_size_mb env
                    None (Some file) R accept) t in
  let api := run (api_upload_html BASE_URL MAX_UPLOAD_SIZE max_size_mb env
                    (Some file) n) t in
  table_after web = table_after api
  ∧ printed web = printed api
  ∧ status (outcome web) = status (outcome api)
  ∧ (contains "application/json" accept || contains "text/plain" accept = true
     → ∀ body, outcome web = Ok (JSONResponse body) ↔ outcome api = Ok body).
Proof.
  intros Hdec HR file n web api. subst file n web api.
  pose proof (decode_encode raw C Hdec) as Hb.
  assert ((if match days with Some d => d | None => 0 end <=? 0
           then None
           else Some match days with Some d => d | None => 0 end) = days)
    as Hdays.
  { apply EXPIRATION_OPTIONS_lookup in HR.
    by destruct HR as [->|[->|[->| ->]]]. }
  unfold run, upload_html, api_upload_html, bind, ret, raise, lift.
  cbn [filename file_bytes]. rewrite Hdec, Hdays, HR.
  destruct (len raw >? MAX_UPLOAD_SIZE); [by repeat split|].
  cbv beta iota.
  assert (truthy (strip C) = true → truthy C = true) as Himp
    by (by destruct C).
  destruct (truthy (strip C)); cbn [negb orb].
  2:{ rewrite orb_true_r. by repeat split. }
  rewrite Himp by done. cbn [negb orb].
  destruct (calculate_expiration (now_calculate env) days) as [expires|e];
    [|by repeat split].
  rewrite Hb. unfold db_add, db_commit.
  cbn [rows pending stdout app apply_stmts apply_stmt id content expires_at
       content_size].
  destruct (commit_ok env); [|by repeat split].
  unfold generate_id, row_of.
  cbn [created_at content expires_at content_size].
  destruct (t !! token_urlsafe env); [by repeat split|].
  destruct (contains "application/json" accept || contains "text/plain" accept);
    cbn [outcome table_after printed status].
  - do 3 (split; [done|]). intros _ body. split; intros [= <-]; done.
  - by repeat split.
Qed.

(** X19. The [Accept] header of [/upload] decides the shape of a
    successful answer and nothing else: with any other header the table
    afterwards, the status and the exception raised are the same, and the
    answer is JSON exactly when the header names [application/json] or
    [text/plain]. *)
Theorem accept_only_shapes_the_response (env : Env) html_content html_file
    (R accept accept' : string) (t : table) :
  let a := run (upload_html BASE_URL MAX_UPLOAD_SIZE max_size_mb env
                  html_content html_file R accept) t in
  let b := run (upload_html BASE_URL MAX_UPLOAD_SIZE max_size_mb env
                  html_content html_file R accept') t in
  table_after a = table_after b
  ∧ status (outcome a) = status (outcome b)
  ∧ (∀ e, outcome a = Raise e ↔ outcome b = Raise e)
  ∧ (∀ body, outcome a = Ok (JSONResponse body) →
       contains "application/json" accept || contains "text/plain" accept
       = true)
  ∧ (∀ context, outcome a = Ok (TemplateResponse context) →
       contains "application/json" accept || contains "text/plain" accept
       = false).
Proof.
  unfold run, upload_html, bind, ret, raise, lift, db_add, db_commit.
  cbn [rows pending stdout app apply_stmts apply_stmt].
  destruct (contains "application/json" accept || contains "text/plain" accept),
    (contains "application/json" accept' || contains "text/plain" accept').
  all: repeat case_match; cbn [outcome table_after printed status] in *;
    simplify_eq; by split_and!.
Qed.

End UploadMore.

(** ** Reads: what they serve and what they touch *)

Lemma view_page_ok_iff (env : Env) (page_id : string) (t : table) (c : str) :
  outcome (run (view_page env page_id) t) = Ok c
  ↔ select_ok env = true
    ∧ ∃ r, t !! page_id = Some r ∧ row_content r = c
           ∧ ¬ lapsed (now_is_expired env) (row_expires_at r).
Proof.
  rewrite run_view_page.
  destruct (select_ok env); [|split; [done|by intros []]].
  destruct (t !! page_id) as [r|] eqn:Hr.
  2:{ split; [done|]. by intros (_ & r & ? & _). }
  destruct (is_expired (now_is_expired env) (page_of page_id r)) eqn:Hexp.
  - apply (lapsed_is_expired _ page_id) in Hexp. unfold purge.
    split; [by destruct (commit_ok env)|].
    intros (_ & r' & [= <-] & _ & Hlive). done.
  - apply (not_lapsed_is_expired _ page_id) in Hexp. cbn. split.
    + intros [= <-]. eauto.
    + intros (_ & r' & [= <-] & <- & _). done.
Qed.

Lemma read_table_after (env : Env) (page_id : string) (t : table) :
  table_after (run (page_info env page_id) t)
  = table_after (run (view_page env page_id) t)
  ∧ (table_after (run (view_page env page_id) t) = t
     ∨ table_after (run (view_page env page_id) t) = delete page_id t
       ∧ ∃ r, t !! page_id = Some r
              ∧ lapsed (now_is_expired env) (row_expires_at r)).
Proof.
  rewrite run_view_page, run_page_info.
  destruct (select_ok env); [|by split; [|left]].
  destruct (t !! page_id) as [r|] eqn:Hr; [|by split; [|left]].
  destruct (is_expired (now_is_expired env) (page_of page_id r)) eqn:Hexp;
    [|by split; [|left]].
  apply (lapsed_is_expired _ page_id) in Hexp. unfold purge.
  destruct (commit_ok env); cbn; [|by split; [|left]].
  split; [done|]. right. eauto.
Qed.

(** X20. [view_page] answers with content exactly when the query went
    through and the id has a row that has not lapsed at the clock
    reading, and the content is that row's; it then leaves the table as
    it was.  It never serves a page that is absent or expired. *)
Theorem view_page_serves_only_live (env : Env) (page_id : string) (t : table) :
  let res := run (view_page env page_id) t in
  (∀ c, outcome res = Ok c
        ↔ select_ok env = true
          ∧ ∃ r, t !! page_id = Some r ∧ row_content r = c
                 ∧ ¬ lapsed (now_is_expired env) (row_expires_at r))
  ∧ (∀ c, outcome res = Ok c → table_after res = t ∧ printed res = []).
Proof.
  intros res. subst res. split; [intros c; apply view_page_ok_iff|].
  intros c (Hs & r & Hr & _ & Hlive%(not_lapsed_is_expired _ page_id))
           %view_page_ok_iff.
  by rewrite run_view_page, Hs, Hr, Hlive.
Qed.

(** X21. A view or an info changes at most the row it asks for, and only
    by removing it when it has lapsed: the table afterwards is the table
    before or the table without that row, every other row is as it was,
    and the two handlers leave the same table. *)
Theorem reads_touch_one_row (env : Env) (page_id : string) (t : table) :
  let viewed := table_after (run (view_page env page_id) t) in
  let inspected := table_after (run (page_info env page_id) t) in
  inspected = viewed
  ∧ (viewed = t
     ∨ viewed = delete page_id t
       ∧ ∃ r, t !! page_id = Some r
              ∧ lapsed (now_is_expired env) (row_expires_at r))
  ∧ viewed ⊆ t
  ∧ ∀ k, k ≠ page_id → viewed !! k = t !! k.
Proof.
  intros viewed inspected. subst viewed inspected.
  destruct (read_table_after env page_id t) as [-> [->|[-> Hr]]].
  - by split_and!; [|left|..].
  - split_and!; [done|right; done|apply delete_subseteq|].
    intros k Hk. by rewrite lookup_delete_ne.
Qed.

(** X22. What is served at one clock reading is served, unchanged, at any
    earlier one: expiry only ever takes a page away. *)
Theorem served_now_served_before (env1 env2 : Env) (page_id : string)
    (t : table) (c : str) :
  now_is_expired env1 ≤ now_is_expired env2 →
  select_ok env1 = true →
  outcome (run (view_page env2 page_id) t) = Ok c →
  run (view_page env1 page_id) t
  = {| outcome := Ok c; table_after := t; printed := [] |}.
Proof.
  intros Hle Hs (_ & r & Hr & <- & Hlive)%view_page_ok_iff.
  rewrite run_view_page, Hs, Hr.
  rewrite (proj1 (not_lapsed_is_expired _ page_id r)); [done|].
  intros (e & He & Hlt). apply Hlive. exists e. split; [done|lia].
Qed.

(** ** The clean-up job, further *)

(** X23. When the bulk delete or the commit fails, the clean-up raises
    the database error, removes nothing (a delete that ran is rolled
    back) and prints nothing. *)
Theorem cleanup_failure_rolls_back (env : Env) (t : table) :
  delete_ok env = false ∨ commit_ok env = false →
  run (cleanup_expired_pages env) t
  = {| outcome := Raise OperationalError; table_after := t; printed := [] |}.
Proof.
  unfold run, cleanup_expired_pages, bind, query_delete, db_commit.
  intros [H|H]; rewrite H; [done|]. by destruct (delete_ok env).
Qed.

(** The clean-up only removes rows, whatever the database does. *)
Lemma cleanup_only_removes (env : Env) (t : table) :
  table_after (run (cleanup_expired_pages env) t) ⊆ t.
Proof.
  destruct (delete_ok env) eqn:Hd, (commit_ok env) eqn:Hc.
  { rewrite cleanup_table_after by done. apply map_filter_subseteq. }
  all: unfold run, cleanup_expired_pages, bind, query_delete, db_commit.
  all: by rewrite Hd, ?Hc.
Qed.

(** X24. With the database answering, the clean-up prints its line
    exactly when it removed at least one row: a run that prints nothing
    left the table as it was, and the other way round. *)
Theorem cleanup_prints_iff_removed (env : Env) (t : table) :
  delete_ok env = true → commit_ok env = true →
  let res := run (cleanup_expired_pages env) t in
  printed res = [] ↔ table_after res = t.
Proof.
  intros Hd Hc res. subst res.
  rewrite run_cleanup_expired_pages by done. cbn zeta.
  cbn [table_after printed].
  pose proof (selected_unselected_size
                (cleanup_filter (now_cleanup env)) t) as Hsize.
  destruct (Z.of_nat (size (selected _ t)) >? 0) eqn:Hpos.
  - rewrite Z.gtb_ltb in Hpos. apply Z.ltb_lt in Hpos.
    split; [done|]. intros Heq. rewrite Heq in Hsize. lia.
  - rewrite Z.gtb_ltb in Hpos. apply Z.ltb_ge in Hpos.
    split; [|done]. intros _.
    apply map_subseteq_size_eq; [apply map_filter_subseteq|]. lia.
Qed.

Lemma unselected_twice (now1 now2 : datetime) (t : table) :
  now1 ≤ now2 →
  unselected (cleanup_filter now2) (unselected (cleanup_filter now1) t)
  = unselected (cleanup_filter now2) t.
Proof.
  intros Hle. apply map_eq. intros k.
  rewrite !unselected_lookup.
  destruct (t !! k) as [r|]; [|done].
  destruct (cleanup_filter now1 (page_of k r)) eqn:E1; [|done].
  apply cleanup_filter_lapsed in E1 as (e & He & Hlt).
  assert (cleanup_filter now2 (page_of k r) = true) as ->; [|done].
  apply cleanup_filter_lapsed. exists e. split; [done|lia].
Qed.

(** X25. Two clean-ups in a row, the second reading the clock no earlier
    than the first, leave the table that the second alone would have
    left. *)
Theorem cleanup_twice_is_once (env1 env2 : Env) (t : table) :
  delete_ok env1 = true → commit_ok env1 = true →
  delete_ok env2 = true → commit_ok env2 = true →
  now_cleanup env1 ≤ now_cleanup env2 →
  table_after (run (cleanup_expired_pages env2)
                 (table_after (run (cleanup_expired_pages env1) t)))
  = table_after (run (cleanup_expired_pages env2) t).
Proof.
  intros Hd1 Hc1 Hd2 Hc2 Hle.
  rewrite !cleanup_table_after by done. by apply unselected_twice.
Qed.

(** X26. Deleting on read does not get in the way of the sweep: a view,
    however it ends, followed by a clean-up that reads the clock no
    earlier leaves the table the clean-up alone would have left. *)
Theorem read_then_cleanup (env_read env_sweep : Env) (page_id : string)
    (t : table) :
  delete_ok env_sweep = true → commit_ok env_sweep = true →
  now_is_expired env_read ≤ now_cleanup env_sweep →
  table_after (run (cleanup_expired_pages env_sweep)
                 (table_after (run (view_page env_read page_id) t)))
  = table_after (run (cleanup_expired_pages env_sweep) t).
Proof.
  intros Hd Hc Hle. rewrite !cleanup_table_after by done.
  destruct (read_table_after env_read page_id t)
    as (_ & [->|[-> (r & Hr & e & He & Hlt)]]); [done|].
  apply map_eq. intros k. rewrite !unselected_lookup.
  destruct (decide (k = page_id)) as [->|Hk].
  - rewrite lookup_delete_eq, Hr.
    assert (cleanup_filter (now_cleanup env_sweep) (page_of page_id r) = true)
      as ->; [|done].
    apply cleanup_filter_lapsed. exists e. split; [done|lia].
  - by rewrite lookup_delete_ne.
Qed.

(** X27. After a clean-up, a view that reads the clock no later than the
    clean-up did finds nothing to delete: it leaves the table as it is
    and never answers "Page has expired". *)
Theorem read_after_cleanup_is_pure (env_sweep env_read : Env)
    (page_id : string) (t : table) :
  delete_ok env_sweep = true → commit_ok env_sweep = true →
  now_is_expired env_read ≤ now_cleanup env_sweep →
  let swept := table_after (run (cleanup_expired_pages env_sweep) t) in
  let res := run (view_page env_read page_id) swept in
  table_after res = swept ∧ outcome res ≠ has_expired.
Proof.
  intros Hd Hc Hle swept res. subst swept res.
  rewrite cleanup_table_after by done. rewrite run_view_page.
  destruct (select_ok env_read); [|done].
  destruct (unselected _ t !! page_id) as [r|] eqn:Hr; [|done].
  apply cleanup_lookup_Some in Hr as [Hr Hlive].
  rewrite (proj1 (not_lapsed_is_expired _ page_id r)); [done|].
  intros (e & He & Hlt). apply Hlive. exists e. split; [done|lia].
Qed.

(** ** What every stored row looks like *)

Section Invariant.

Variable BASE_URL : string.
Variable MAX_UPLOAD_SIZE : Z.
Variable max_size_mb : string.

Lemma table_ok_subseteq (t t' : table) :
  t' ⊆ t → table_ok MAX_UPLOAD_SIZE t → table_ok MAX_UPLOAD_SIZE t'.
Proof.
  intros Hsub Hok k r Hr. apply (Hok k). by eapply lookup_weaken.
Qed.

(** X28. Every handler keeps the table well formed: if each row has
    [created_at] set, content that is not blank, a size equal to the
    length of the content's UTF-8 encoding, positive and within the limit,
    then so has each row after an upload on either endpoint, a view, an
    info or a clean-up, whatever they are sent and however they end. *)
Theorem handlers_keep_pages_ok (env : Env) (t : table) :
  table_ok MAX_UPLOAD_SIZE t →
  (∀ html_content html_file R accept,
     table_ok MAX_UPLOAD_SIZE
       (table_after (run (upload_html BASE_URL MAX_UPLOAD_SIZE max_size_mb env
                            html_content html_file R accept) t)))
  ∧ (∀ html_file n,
       table_ok MAX_UPLOAD_SIZE
         (table_after (run (api_upload_html BASE_URL MAX_UPLOAD_SIZE
                              max_size_mb env html_file n) t)))
  ∧ (∀ page_id,
       table_ok MAX_UPLOAD_SIZE (table_after (run (view_page env page_id) t))
       ∧ table_ok MAX_UPLOAD_SIZE
           (table_after (run (page_info env page_id) t)))
  ∧ table_ok MAX_UPLOAD_SIZE
      (table_after (run (cleanup_expired_pages env) t)).
Proof.
  intros Hok. split_and!.
  - intros hc hf R accept.
    destruct (outcome (run (upload_html BASE_URL MAX_UPLOAD_SIZE max_size_mb
                              env hc hf R accept) t)) as [resp|e] eqn:Ho.
    + apply upload_html_ok_inv in Ho
        as (C & b & days & expires & _ & [Hstrip (b' & Hb' & Hlen)] & Hb & _
            & _ & _ & _ & ->).
      assert (b' = b) as -> by congruence.
      apply map_Forall_insert_2; [|done].
      split_and!; cbn; [done|done|by eauto|..|done].
      apply (encode_nonempty C b Hb). by destruct C.
    + by apply upload_html_raise_writes_nothing in Ho as [-> _].
  - intros hf n.
    destruct (outcome (run (api_upload_html BASE_URL MAX_UPLOAD_SIZE
                              max_size_mb env hf n) t)) as [resp|e] eqn:Ho.
    + apply api_upload_html_ok_inv in Ho
        as (f & C & expires & _ & Hdec & Hstrip & Hlen & _ & _ & _ & _ & _ & _
            & ->).
      pose proof (decode_encode _ _ Hdec) as Hb.
      apply map_Forall_insert_2; [|done].
      split_and!; cbn; [done|done|by eauto|..|done].
      apply (encode_nonempty C _ Hb). by destruct C.
    + by apply api_upload_html_raise_writes_nothing in Ho as [-> _].
  - intros page_id.
    destruct (read_table_after env page_id t) as [-> Hcases].
    assert (table_after (run (view_page env page_id) t) ⊆ t) as Hsub.
    { destruct Hcases as [->|[-> _]]; [done|apply delete_subseteq]. }
    split; by apply (table_ok_subseteq t).
  - apply (table_ok_subseteq t); [|done]. apply cleanup_only_removes.
Qed.

(** X29. On a well-formed table [page_info] never fails for want of a
    [created_at], and it answers with metadata exactly when [view_page]
    answers with content. *)
Theorem page_info_on_ok_table (env : Env) (page_id : string) (t : table) :
  table_ok MAX_UPLOAD_SIZE t →
  outcome (run (page_info env page_id) t) ≠ Raise AttributeError
  ∧ ((∃ c, outcome (run (view_page env page_id) t) = Ok c)
     ↔ ∃ info, outcome (run (page_info env page_id) t) = Ok info).
Proof.
  intros Hok. rewrite run_view_page, run_page_info.
  destruct (select_ok env); [|split; [done|by split; intros []]].
  destruct (t !! page_id) as [r|] eqn:Hr;
    [|split; [done|by split; intros []]].
  destruct (Hok page_id r Hr) as ([c Hc] & _).
  destruct (is_expired (now_is_expired env) (page_of page_id r)).
  - unfold purge. destruct (commit_ok env);
      (split; [done|by split; intros []]).
  - cbn. unfold info_of. rewrite Hc. split; [done|].
    split; intros _; eauto.
Qed.

End Invariant.

(** ** The further statements at sample inputs *)

Section MoreWitnesses.
Import Stdlib.Strings.Ascii Sample More.

Lemma calculate_expiration_closed_form_witness :
  datetime_min ≤ new_year ≤ datetime_max
  ∧ calculate_expiration new_year (Some 4000000) = Raise OverflowError.
Proof.
  assert (datetime_min ≤ new_year ≤ datetime_max) as Hnow by (by vm_compute).
  split; [done|].
  by destruct (calculate_expiration_closed_form new_year (Some 4000000) Hnow)
    as [-> _].
Defined.

Lemma time_remaining_rounds_down_witness :
  expires_at (page_of "living0000000002" live_row)
  = Some (new_year + 7 * us_per_day)
  ∧ new_year + 1 < new_year + 7 * us_per_day
  ∧ ∃ d h, 0 ≤ h < 24
           ∧ time_remaining (new_year + 1) (page_of "living0000000002" live_row)
             = if d >? 0
               then str_of_int d +:+ " day(s), " +:+ str_of_int h
                    +:+ " hour(s)"
               else str_of_int h +:+ " hour(s)".
Proof.
  assert (new_year + 1 < new_year + 7 * us_per_day) as Hlt by (by vm_compute).
  split; [done|]. split; [done|].
  destruct (time_remaining_rounds_down (new_year + 1)
              (new_year + 7 * us_per_day)
              (page_of "living0000000002" live_row) eq_refl Hlt)
    as (d & h & _ & Hh & _ & Heq).
  by exists d, h.
Defined.

Lemma draw_bytes : Forall is_byte draw.
Proof. repeat constructor; by vm_compute. Qed.

Lemma generate_id_sixteen_witness :
  token_urlsafe drawn = Base64.token_urlsafe_of draw
  ∧ length draw = 12%nat
  ∧ Forall is_byte draw
  ∧ String.length (generate_id drawn) = 16%nat.
Proof.
  split; [done|]. split; [done|]. split; [apply draw_bytes|].
  by destruct (generate_id_sixteen drawn draw eq_refl eq_refl draw_bytes)
    as [-> _].
Defined.

Lemma upload_html_raise_kinds_witness :
  outcome (run (upload_html "http://localhost:8000" 5242880 "5.0" env
                  (Some hi) None "14" "") pages)
  = Raise (HTTPException 400 "Invalid expiration option")
  ∧ HTTPException 400 "Invalid expiration option" ≠ AttributeError.
Proof.
  assert (outcome (run (upload_html "http://localhost:8000" 5242880 "5.0" env
                          (Some hi) None "14" "") pages)
          = Raise (HTTPException 400 "Invalid expiration option")) as Hr
    by (by vm_compute).
  split; [done|].
  destruct (upload_html_raise_kinds _ _ _ _ _ _ _ _ _ _ Hr)
    as [H|[H|[H|[H|[H|[H|[H|[H|H]]]]]]]]; done.
Defined.

Lemma api_upload_html_raise_kinds_witness :
  outcome (run (api_upload_html "http://localhost:8000" 5242880 "5.0" env
                  (Some broken) 7) pages)
  = Raise (HTTPException 400 "File must be valid UTF-8 text")
  ∧ HTTPException 400 "File must be valid UTF-8 text" ≠ UnicodeDecodeError.
Proof.
  assert (outcome (run (api_upload_html "http://localhost:8000" 5242880 "5.0"
                          env (Some broken) 7) pages)
          = Raise (HTTPException 400 "File must be valid UTF-8 text")) as Hr
    by (by vm_compute).
  split; [done|].
  destruct (api_upload_html_raise_kinds _ _ _ _ _ _ _ _ Hr)
    as [H|[H|[H|[H|[H|[H|H]]]]]]; done.
Defined.

Lemma hi_submitted : submits hi (Some hi) None.
Proof. by constructor. Qed.

Lemma hi_valid : valid_content 5242880 hi.
Proof. split; [by vm_compute|]. exists hi. by vm_compute. Qed.

Lemma upload_html_storage_refusals_witness :
  submits hi (Some hi) None
  ∧ valid_content 5242880 hi
  ∧ EXPIRATION_OPTIONS !! "7"%string = Some (Some 7)
  ∧ is_Some (pages !! token_urlsafe repeated)
  ∧ run (upload_html "http://localhost:8000" 5242880 "5.0" repeated
           (Some hi) None "7" "") pages
    = {| outcome := Raise IntegrityError; table_after := pages;
         printed := [] |}.
Proof.
  assert (is_Some (pages !! token_urlsafe repeated)) as Htaken
    by (by eexists; vm_compute).
  do 2 (split; [by auto using hi_submitted, hi_valid|]).
  split; [done|]. split; [done|].
  destruct (upload_html_storage_refusals "http://localhost:8000" 5242880 "5.0"
              repeated hi (Some hi) None "7" (Some 7)
              (Some (new_year + 7 * us_per_day)) "" pages
              hi_submitted hi_valid eq_refl) as [_ H];
    [by vm_compute|].
  by apply H.
Defined.

Lemma oversized_file_refused_witness :
  5 < len hi
  ∧ status (outcome (run (upload_html "http://localhost:8000" 5 "0.0" env
                            None (Some page) "7" "") pages)) = 413.
Proof.
  assert (5 < len hi) as Hbig by (by vm_compute).
  split; [done|]. unfold page.
  by destruct (oversized_file_refused "http://localhost:8000" 5 "0.0" env
                 None "p"%char "age.html" hi "7" "" 7 pages Hbig) as [-> _].
Defined.

Lemma oversized_text_refused_witness :
  no_file None ∧ hi ≠ [] ∧ Utf8.encode hi = Some hi ∧ 5 < len hi
  ∧ status (outcome (run (upload_html "http://localhost:8000" 5 "0.0" env
                            (Some hi) None "7" "") pages)) = 413.
Proof.
  assert (5 < len hi) as Hbig by (by vm_compute).
  assert (Utf8.encode hi = Some hi) as Hb by (by vm_compute).
  split; [done|]. split; [done|]. split; [done|]. split; [done|].
  by rewrite (oversized_text_refused "http://localhost:8000" 5 "0.0" env
                hi hi None "7" "" pages I ltac:(done) Hb Hbig).
Defined.

Lemma blank_refused_witness :
  submits blank (Some blank) None
  ∧ forallb isspace blank = true
  ∧ (∃ b, Utf8.encode blank = Some b ∧ len b ≤ 5242880)
  ∧ status (outcome (run (upload_html "http://localhost:8000" 5242880 "5.0"
                            env (Some blank) None "7" "") pages)) = 400.
Proof.
  assert (submits blank (Some blank) None) as Hs by (by constructor).
  assert (∃ b, Utf8.encode blank = Some b ∧ len b ≤ 5242880) as Hb
    by (exists blank; by vm_compute).
  split; [done|]. split; [done|]. split; [done|].
  by destruct (blank_refused "http://localhost:8000" 5242880 "5.0" env blank
                 (Some blank) None "7" "" 7 pages Hs eq_refl Hb) as [-> _].
Defined.

Lemma invalid_selector_refused_witness :
  submits hi (Some hi) None ∧ valid_content 5242880 hi
  ∧ status (outcome (run (upload_html "http://localhost:8000" 5242880 "5.0"
                            env (Some hi) None "14" "") pages)) = 400.
Proof.
  do 2 (split; [by auto using hi_submitted, hi_valid|]).
  by rewrite (invalid_selector_refused "http://localhost:8000" 5242880 "5.0"
                env hi (Some hi) None "14" "" pages hi_submitted hi_valid).
Defined.

Lemma field_and_file_agree_witness :
  Utf8.encode hi = Some hi ∧ len hi ≤ 5242880
  ∧ run (upload_html "http://localhost:8000" 5242880 "5.0" env
           (Some hi) None "7" "") pages
    = run (upload_html "http://localhost:8000" 5242880 "5.0" env
             None (Some page) "7" "") pages.
Proof.
  assert (Utf8.encode hi = Some hi) as Hb by (by vm_compute).
  assert (len hi ≤ 5242880) as Hlen by (by vm_compute).
  split; [done|]. split; [done|].
  apply (field_and_file_agree "http://localhost:8000" 5242880 "5.0" env hi hi
           "p"%char "age.html" "7" "" pages Hb Hlen).
Defined.

Lemma endpoints_agree_on_file_witness :
  Utf8.decode hi = Some hi
  ∧ EXPIRATION_OPTIONS !! "30"%string = Some (Some 30)
  ∧ table_after (run (upload_html "http://localhost:8000" 5242880 "5.0" env
                        None (Some page) "30" "") pages)
    = table_after (run (api_upload_html "http://localhost:8000" 5242880 "5.0"
                          env (Some page) 30) pages).
Proof.
  assert (Utf8.decode hi = Some hi) as Hdec by (by vm_compute).
  split; [done|]. split; [done|].
  by destruct (endpoints_agree_on_file "http://localhost:8000" 5242880 "5.0"
                 env "p"%char "age.html" hi hi "30" (Some 30) "" pages Hdec eq_refl)
    as [H _].
Defined.

Lemma served_now_served_before_witness :
  now_is_expired env ≤ now_is_expired later
  ∧ outcome (run (view_page later "living0000000002") pages) = Ok hi
  ∧ outcome (run (view_page env "living0000000002") pages) = Ok hi.
Proof.
  assert (now_is_expired env ≤ now_is_expired later) as Hle
    by (by vm_compute).
  assert (outcome (run (view_page later "living0000000002") pages) = Ok hi)
    as Hok by (by vm_compute).
  split; [done|]. split; [done|].
  by rewrite (served_now_served_before env later "living0000000002" pages hi
                Hle eq_refl Hok).
Defined.

Lemma cleanup_failure_rolls_back_witness :
  delete_ok no_delete = false
  ∧ table_after (run (cleanup_expired_pages no_delete) pages) = pages.
Proof.
  split; [done|].
  by rewrite (cleanup_failure_rolls_back no_delete pages (or_introl eq_refl)).
Defined.

Lemma cleanup_prints_iff_removed_witness :
  delete_ok env = true ∧ commit_ok env = true
  ∧ printed (run (cleanup_expired_pages env) pages)
    = ["Cleaned up 1 expired page(s)"%string]
  ∧ table_after (run (cleanup_expired_pages env) pages) ≠ pages.
Proof.
  split; [done|]. split; [done|]. split; [by vm_compute|].
  intros Heq.
  apply (cleanup_prints_iff_removed env pages eq_refl eq_refl) in Heq.
  by vm_compute in Heq.
Defined.

Lemma cleanup_twice_is_once_witness :
  now_cleanup env ≤ now_cleanup later
  ∧ table_after (run (cleanup_expired_pages later)
                   (table_after (run (cleanup_expired_pages env) pages)))
    = table_after (run (cleanup_expired_pages later) pages).
Proof.
  assert (now_cleanup env ≤ now_cleanup later) as Hle by (by vm_compute).
  split; [done|].
  apply (cleanup_twice_is_once env later pages eq_refl eq_refl eq_refl eq_refl
           Hle).
Defined.

Lemma read_then_cleanup_witness :
  now_is_expired env ≤ now_cleanup later
  ∧ table_after (run (cleanup_expired_pages later)
                   (table_after
                      (run (view_page env "lapsed0000000001") pages)))
    = table_after (run (cleanup_expired_pages later) pages).
Proof.
  assert (now_is_expired env ≤ now_cleanup later) as Hle by (by vm_compute).
  split; [done|].
  apply (read_then_cleanup env later "lapsed0000000001" pages eq_refl eq_refl
           Hle).
Defined.

Lemma read_after_cleanup_is_pure_witness :
  now_is_expired env ≤ now_cleanup later
  ∧ outcome (run (view_page env "lapsed0000000001")
               (table_after (run (cleanup_expired_pages later) pages)))
    ≠ has_expired.
Proof.
  assert (now_is_expired env ≤ now_cleanup later) as Hle by (by vm_compute).
  split; [done|].
  by destruct (read_after_cleanup_is_pure later env "lapsed0000000001" pages
                 eq_refl eq_refl Hle) as [_ H].
Defined.

Lemma hi_row_ok (r : Row) :
  row_content r = hi → is_Some (row_created_at r) → row_content_size r = 11 →
  page_ok 5242880 r.
Proof.
  intros Hc Hcr Hs. split_and!; rewrite ?Hc, ?Hs; try done.
  exists hi. by vm_compute.
Qed.

Lemma pages_ok : table_ok 5242880 pages.
Proof.
  intros k r Hr. destruct (pages_lookup k r Hr) as [->|[->| ->]];
    by apply hi_row_ok.
Qed.

Lemma handlers_keep_pages_ok_witness :
  table_ok 5242880 pages
  ∧ table_ok 5242880
      (table_after (run (upload_html "http://localhost:8000" 5242880 "5.0"
                           env (Some hi) None "7" "") pages)).
Proof.
  split; [apply pages_ok|].
  destruct (handlers_keep_pages_ok "http://localhost:8000" 5242880 "5.0"
              env pages pages_ok) as [H _].
  apply H.
Defined.

Lemma page_info_on_ok_table_witness :
  table_ok 5242880 pages
  ∧ outcome (run (page_info env "living0000000002") pages)
    ≠ Raise AttributeError.
Proof.
  split; [apply pages_ok|].
  by destruct (page_info_on_ok_table 5242880 env "living0000000002" pages
                 pages_ok) as [H _].
Defined.

End MoreWitnesses.
